(** * A shallow embedding of the game engine of discord_ai_bot

    Sources embedded here:
    - [src/games/utils/base_game.js]   (class BaseGame: the session state machine),
    - [src/games/chess/chess_game.js]  (class ChessGame: the chess adapter),
    - [src/games/utils/board_renderer.js] (renderChessBoard),
    - [src/games/game_manager.js]      (class GameManager: the session registry).

    Modelling conventions.
    - A JavaScript string is the list of its UTF-16 code units ([list N]).
      String literals of the source are written with [js], which decodes the
      UTF-8 bytes of a Rocq literal into code units.
    - [null] and a missing property ([undefined]) are kept apart where the
      source can tell them apart: see [field].
    - The move clocks are JavaScript numbers; they are carried as [NaN] or an
      exact integer.  The model follows the source on the safe integers, of
      absolute value below 2^53: beyond them the source rounds ([parseInt],
      [x++]) and prints exponents ([String], from 1e21 on), which the model does
      not.  Statements about the clocks are made under [wf_clock].
    - The external service [iaService.sendMessageToAI] is an argument of the
      operations that call it: a function from the prompt to [Some reply], or
      [None] when the call throws.  [new Date()] is an argument as well.
    - A function of the source that can throw returns an [option]; [None] is
      the exception, handled where the source has its [try]/[catch]. *)

From Stdlib Require Import ZArith NArith Lia List String Ascii Bool.
From stdpp Require Import base option list gmap.

(** ** JavaScript strings *)

(** Code units of a UTF-8 byte sequence (sequences of one to three bytes, which
    cover every literal of the sources). *)
Fixpoint utf16_of_utf8 (bs : list N) : list N :=
  match bs with
  | [] => []
  | b :: t =>
      if (b <? 128)%N then b :: utf16_of_utf8 t
      else if (b <? 224)%N then
        match t with
        | c :: t' => ((b - 192) * 64 + (c - 128))%N :: utf16_of_utf8 t'
        | [] => []
        end
      else
        match t with
        | c :: d :: t' =>
            ((b - 224) * 4096 + (c - 128) * 64 + (d - 128))%N :: utf16_of_utf8 t'
        | _ => []
        end
  end.

Definition js (s : string) : list N :=
  utf16_of_utf8 (List.map N_of_ascii (list_ascii_of_string s)).
Arguments js s%_string.

(** The double quote, U+0022. *)
Definition dquote : list N := [34%N].

(** [WhiteSpace] and [LineTerminator] of ECMAScript: the class [\s] of a
    regular expression, and what [trim] and [parseInt] strip. *)
Definition isSpace (c : N) : bool :=
  (((9 <=? c) && (c <=? 13)) || (c =? 32) || (c =? 160) || (c =? 5760)
   || ((8192 <=? c) && (c <=? 8202)) || (c =? 8232) || (c =? 8233)
   || (c =? 8239) || (c =? 8287) || (c =? 12288) || (c =? 65279))%N.

(** What [.] does not match (no [s] flag): the line terminators. *)
Definition isLineTerminator (c : N) : bool :=
  ((c =? 10) || (c =? 13) || (c =? 8232) || (c =? 8233))%N.

Definition upperASCII (c : N) : N :=
  if ((97 <=? c) && (c <=? 122))%N then (c - 32)%N else c.

Definition lowerASCII (c : N) : N :=
  if ((65 <=? c) && (c <=? 90))%N then (c + 32)%N else c.

(** Comparison of an input code unit with an ASCII pattern character under the
    [i] flag (no [u] flag): both are canonicalised by upper-casing, and a code
    unit of 128 or more never canonicalises to an ASCII one. *)
Definition eq_ci (c p : N) : bool := (upperASCII c =? upperASCII p)%N.

(** [String.prototype.toLowerCase].  Exact on code units below 128; other code
    units are left in place (none of them lower-cases to a string this program
    compares against). *)
Definition toLowerCase (s : list N) : list N := List.map lowerASCII s.

Fixpoint drop_while (p : N -> bool) (s : list N) : list N :=
  match s with
  | c :: t => if p c then drop_while p t else s
  | [] => []
  end.

Fixpoint take_while (p : N -> bool) (s : list N) : list N :=
  match s with
  | c :: t => if p c then c :: take_while p t else []
  | [] => []
  end.

(** [String.prototype.trim]. *)
Definition trim (s : list N) : list N :=
  rev (drop_while isSpace (rev (drop_while isSpace s))).

Definition str_eqb (a b : list N) : bool := bool_decide (a = b).

(** [String.prototype.split] with a separator of one code unit. *)
Fixpoint split_on (sep : N) (s : list N) : list (list N) :=
  match s with
  | [] => [[]]
  | c :: t =>
      if (c =? sep)%N then [] :: split_on sep t
      else match split_on sep t with
           | h :: r => (c :: h) :: r
           | [] => [[c]]
           end
  end.

(** [Array.prototype.join] with a separator. *)
Fixpoint join_with (sep : list N) (parts : list (list N)) : list N :=
  match parts with
  | [] => []
  | [p] => p
  | p :: rest => p ++ sep ++ join_with sep rest
  end.

(** [String.prototype.includes] with an argument of one code unit. *)
Definition includes (c : N) (s : list N) : bool := existsb (N.eqb c) s.

(** ** [null], [undefined] and truthiness *)

Inductive field (A : Type) : Type :=
| Absent            (* the property is missing: undefined *)
| Null              (* null *)
| Has (a : A).
Arguments Absent {A}.
Arguments Null {A}.
Arguments Has {A} a.

Definition truthy_bool (f : field bool) : bool :=
  match f with Has true => true | _ => false end.

Definition truthy_str (f : field (list N)) : bool :=
  match f with Has (_ :: _) => true | _ => false end.

(** [a || b] on values that are [null] or booleans. *)
Definition js_or (a b : field bool) : field bool :=
  if truthy_bool a then a else b.

(** ** JavaScript numbers of the move clocks *)

Inductive jsnum : Type :=
| NaN
| Int (z : Z).

Definition isDigit (c : N) : bool := ((48 <=? c) && (c <=? 57))%N.

Fixpoint digits_fuel (fuel : nat) (n : N) (acc : list N) : list N :=
  match fuel with
  | O => acc
  | S f =>
      let acc' := (48 + n mod 10)%N :: acc in
      if (n <? 10)%N then acc' else digits_fuel f (n / 10)%N acc'
  end.

(** Decimal digits of a natural number. *)
Definition N_to_js (n : N) : list N :=
  digits_fuel (S (N.to_nat (N.log2 n))) n [].

(** [String(x)] for a clock value. *)
Definition numToString (x : jsnum) : list N :=
  match x with
  | NaN => js "NaN"
  | Int z => if (z <? 0)%Z then 45%N :: N_to_js (Z.to_N (- z)) else N_to_js (Z.to_N z)
  end.

Definition digits_value (ds : list N) : N :=
  fold_left (fun a d => (a * 10 + (d - 48))%N) ds 0%N.

(** [parseInt(s, 10)] on a string: leading white space, an optional sign, then
    the longest run of decimal digits; [NaN] when there is no digit. *)
Definition parseInt10 (s : list N) : jsnum :=
  let s := drop_while isSpace s in
  let '(neg, s) :=
    match s with
    | c :: t =>
        if (c =? 45)%N then (true, t)           (* - *)
        else if (c =? 43)%N then (false, t)     (* + *)
        else (false, s)
    | [] => (false, s)
    end in
  match take_while isDigit s with
  | [] => NaN
  | ds => let v := Z.of_N (digits_value ds) in Int (if neg then (- v)%Z else v)
  end.

(** [parseInt(x, 10)] where [x] may be undefined: the argument is first turned
    into the string "undefined", which has no digit. *)
Definition parseInt10_opt (x : option (list N)) : jsnum :=
  match x with
  | Some s => parseInt10 s
  | None => NaN
  end.

(** [x++] on a clock. *)
Definition num_incr (x : jsnum) : jsnum :=
  match x with
  | NaN => NaN
  | Int z => Int (z + 1)
  end.

(** ** The regular expressions of the reply parsers

    Each pattern has the shape [LABEL:\s*(group)] with the [i] flag, and is used
    through [String.prototype.match]: the leftmost start position at which the
    pattern matches wins.  A matcher takes the input from the current position
    and returns the captured group. *)

(** Leftmost match: try the pattern at every start position in turn. *)
Fixpoint search {R : Type} (m : list N -> option R) (s : list N) : option R :=
  match m s with
  | Some r => Some r
  | None =>
      match s with
      | [] => None
      | _ :: t => search m t
      end
  end.

(** A literal, case-insensitively, then the rest of the pattern. *)
Fixpoint lit_ci {R : Type} (lit : list N) (k : list N -> option R) (s : list N)
  : option R :=
  match lit with
  | [] => k s
  | p :: lit' =>
      match s with
      | c :: t => if eq_ci c p then lit_ci lit' k t else None
      | [] => None
      end
  end.

(** [\s*]: greedy, giving back one code unit at a time when the rest fails. *)
Fixpoint ws_star {R : Type} (k : list N -> option R) (s : list N) : option R :=
  match s with
  | c :: t =>
      if isSpace c then
        match ws_star k t with
        | Some r => Some r
        | None => k s
        end
      else k s
  | [] => k s
  end.

Definition prefix_ci (lit s : list N) : bool :=
  match lit_ci lit (fun _ => Some tt) s with Some _ => true | None => false end.

(** [(true|false)] *)
Definition grp_truefalse (s : list N) : option (list N) :=
  if prefix_ci (js "true") s then Some (take 4 s)
  else if prefix_ci (js "false") s then Some (take 5 s)
  else None.

(** [[a-h]] and [[1-8]] under the [i] flag. *)
Definition isFile (c : N) : bool :=
  let u := upperASCII c in ((65 <=? u) && (u <=? 72))%N.
Definition isRank (c : N) : bool := ((49 <=? c) && (c <=? 56))%N.
(** [[qrbnQRBN]] *)
Definition isPromo (c : N) : bool :=
  let u := upperASCII c in ((u =? 81) || (u =? 82) || (u =? 66) || (u =? 78))%N.

(** [([a-h][1-8])] *)
Definition grp_square (s : list N) : option (list N) :=
  match s with
  | f :: r :: _ => if isFile f && isRank r then Some [f; r] else None
  | _ => None
  end.

(** [([a-h][1-8][a-h][1-8][qrbnQRBN]?)] *)
Definition grp_move (s : list N) : option (list N) :=
  match s with
  | f1 :: r1 :: f2 :: r2 :: rest =>
      if isFile f1 && isRank r1 && isFile f2 && isRank r2 then
        match rest with
        | p :: _ => if isPromo p then Some [f1; r1; f2; r2; p] else Some [f1; r1; f2; r2]
        | [] => Some [f1; r1; f2; r2]
        end
      else None
  | _ => None
  end.

(** [([a-h][1-8]|ninguno)] *)
Definition grp_square_or_none (s : list N) : option (list N) :=
  match grp_square s with
  | Some sq => Some sq
  | None => if prefix_ci (js "ninguno") s then Some (take 7 s) else None
  end.

(** The lookahead [(?=\n|$)]: a line feed follows, or the input ends. *)
Definition at_line_end (s : list N) : bool :=
  match s with
  | [] => true
  | c :: _ => (c =? 10)%N
  end.

(** [(.+?)(?=\n|$)]: lazily, one or more code units other than line
    terminators, up to the first place where the lookahead holds. *)
Fixpoint grp_line (s : list N) : option (list N) :=
  match s with
  | [] => None
  | c :: t =>
      if isLineTerminator c then None
      else if at_line_end t then Some [c]
      else option_map (cons c) (grp_line t)
  end.

(** [response.match(/LABEL:\s*(group)/i)], as the captured group [[1]]. *)
Definition re_match (label : string) (grp : list N -> option (list N))
  (response : list N) : option (list N) :=
  search (lit_ci (js label) (ws_star grp)) response.

(** [m && m[1].toLowerCase() === 'true'] *)
Definition flag_of (m : option (list N)) : field bool :=
  match m with
  | None => Null
  | Some g => Has (str_eqb (toLowerCase g) (js "true"))
  end.

(** ** Data model *)

(** ['player1'] and ['player2']. *)
Inductive Side : Type := Player1 | Player2.

(** The values of [winner] other than [null]: a side, or ['draw']. *)
Inductive Winner : Type := Won (p : Side) | Draw.

Global Instance Side_eq_dec : EqDecision Side.
Proof. solve_decision. Defined.
Global Instance Winner_eq_dec : EqDecision Winner.
Proof. solve_decision. Defined.

Record Player : Type := mkPlayer {
  pid : list N;         (* id *)
  pname : list N        (* name *)
}.

(** An entry of [moveHistory].  [timestamp] is the instant of [new Date()]
    (the source stores its ISO text). *)
Record Move : Type := mkMove {
  mv_player : list N;
  mv_move : field (list N);
  mv_normalizedMove : field (list N);
  mv_timestamp : N
}.

Record CastlingRights : Type := mkCastling {
  whiteKingSide : bool;
  whiteQueenSide : bool;
  blackKingSide : bool;
  blackQueenSide : bool
}.

(** [this.state] of a ChessGame.  A square of the board is a string of one
    code unit.  ([possibleMoves] is set to [[]] once and never read.) *)
Record ChessState : Type := mkChessState {
  board : list (list N);
  perspective : list N;
  lastMove : field (list N);
  check : field (list N);
  castlingRights : CastlingRights;
  enPassantTarget : field (list N);
  halfMoveClock : jsnum;
  fullMoveNumber : jsnum
}.

(** A game object after [initialize] (or [loadState]). *)
Record Session : Type := mkSession {
  game_type : list N;
  state : ChessState;
  player1 : Player;
  player2 : Player;
  currentTurn : Side;
  winner : field Winner;
  moveHistory : list Move;
  startTime : N;
  endTime : option N;
  vsAI : bool
}.

(** The objects returned by [parseMoveResponse] and [parseAIResponse], and
    their merge in [generateAIMove]. *)
Record MoveResult : Type := mkMoveResult {
  r_valid : field bool;
  r_moveText : field (list N);
  r_normalizedMove : field (list N);
  r_reason : field (list N);
  r_explanation : field (list N);
  r_isCheck : field bool;
  r_isCheckmate : field bool;
  r_isDraw : field bool;
  r_checkPosition : field (list N);
  r_gameOver : field bool;
  r_winner : field Winner;
  r_isCapture : field bool;
  r_pieceMovedText : field (list N);
  r_messageIntro : field (list N);
  r_fenResult : field (list N)
}.

(** The object [{ valid: false, reason }]. *)
Definition invalidResult (reason : list N) : MoveResult :=
  mkMoveResult (Has false) Absent Absent (Has reason) Absent Absent Absent Absent
               Absent Absent Absent Absent Absent Absent Absent.

(** One property of [{...a, ...b}]. *)
Definition over {A : Type} (b a : field A) : field A :=
  match b with
  | Absent => a
  | _ => b
  end.

(** [{ ...a, ...b }] *)
Definition spread (a b : MoveResult) : MoveResult :=
  mkMoveResult
    (over (r_valid b) (r_valid a))
    (over (r_moveText b) (r_moveText a))
    (over (r_normalizedMove b) (r_normalizedMove a))
    (over (r_reason b) (r_reason a))
    (over (r_explanation b) (r_explanation a))
    (over (r_isCheck b) (r_isCheck a))
    (over (r_isCheckmate b) (r_isCheckmate a))
    (over (r_isDraw b) (r_isDraw a))
    (over (r_checkPosition b) (r_checkPosition a))
    (over (r_gameOver b) (r_gameOver a))
    (over (r_winner b) (r_winner a))
    (over (r_isCapture b) (r_isCapture a))
    (over (r_pieceMovedText b) (r_pieceMovedText a))
    (over (r_messageIntro b) (r_messageIntro a))
    (over (r_fenResult b) (r_fenResult a)).

(** A value inside a template literal. *)
Definition tmpl (f : field (list N)) : list N :=
  match f with
  | Absent => js "undefined"
  | Null => js "null"
  | Has s => s
  end.

(** Setters. *)
Definition set_state (s : Session) (st : ChessState) : Session :=
  mkSession (game_type s) st (player1 s) (player2 s) (currentTurn s) (winner s)
            (moveHistory s) (startTime s) (endTime s) (vsAI s).
Definition set_currentTurn (s : Session) (t : Side) : Session :=
  mkSession (game_type s) (state s) (player1 s) (player2 s) t (winner s)
            (moveHistory s) (startTime s) (endTime s) (vsAI s).
Definition set_winner (s : Session) (w : field Winner) : Session :=
  mkSession (game_type s) (state s) (player1 s) (player2 s) (currentTurn s) w
            (moveHistory s) (startTime s) (endTime s) (vsAI s).
Definition set_endTime (s : Session) (t : option N) : Session :=
  mkSession (game_type s) (state s) (player1 s) (player2 s) (currentTurn s) (winner s)
            (moveHistory s) (startTime s) t (vsAI s).
(** [this.moveHistory.push(m)] *)
Definition push_move (s : Session) (m : Move) : Session :=
  mkSession (game_type s) (state s) (player1 s) (player2 s) (currentTurn s) (winner s)
            (moveHistory s ++ [m]) (startTime s) (endTime s) (vsAI s).

(** ** ChessGame: the canonical state and its FEN text *)

Definition initialBoard : list (list N) :=
  [ js "rnbqkbnr"; js "pppppppp"; js "        "; js "        ";
    js "        "; js "        "; js "PPPPPPPP"; js "RNBQKBNR" ].

(** [initializeGameState] *)
Definition initializeGameState : ChessState :=
  mkChessState initialBoard (js "white") Null Null
               (mkCastling true true true true) Null (Int 0) (Int 1).

(** The body of the inner loop of [generateFEN]: square [col] of [row], with
    the text so far and the count of empty squares. *)
Definition fen_square (row : list N) (acc : list N * N) (col : nat) : list N * N :=
  let '(fen, emptySquares) := acc in
  let piece := row !! col in
  if bool_decide (piece = Some 32%N) then (fen, (emptySquares + 1)%N)
  else
    let fen := if (0 <? emptySquares)%N then fen ++ N_to_js emptySquares else fen in
    (fen ++ match piece with Some c => [c] | None => js "undefined" end, 0%N).

(** One turn of the outer loop of [generateFEN]; [None] when [board[row]] is
    undefined (a TypeError). *)
Definition fen_row (b : list (list N)) (fen : option (list N)) (row : nat)
  : option (list N) :=
  match fen, b !! row with
  | Some fen, Some r =>
      let '(fen, emptySquares) := fold_left (fen_square r) (seq 0 8) (fen, 0%N) in
      let fen := if (0 <? emptySquares)%N then fen ++ N_to_js emptySquares else fen in
      Some (if (row <? 7)%nat then fen ++ js "/" else fen)
  | _, _ => None
  end.

Definition castlingText (c : CastlingRights) : list N :=
  (if whiteKingSide c then js "K" else []) ++
  (if whiteQueenSide c then js "Q" else []) ++
  (if blackKingSide c then js "k" else []) ++
  (if blackQueenSide c then js "q" else []).

(** [x || d] on strings. *)
Definition str_or (x : field (list N)) (d : list N) : list N :=
  match x with
  | Has (c :: t) => c :: t
  | _ => d
  end.

(** [generateFEN] *)
Definition generateFEN (s : Session) : option (list N) :=
  match fold_left (fen_row (board (state s))) (seq 0 8) (Some []) with
  | None => None
  | Some fen =>
      let fen := fen ++ js " " ++ (match currentTurn s with Player1 => js "w" | Player2 => js "b" end) in
      let fen := fen ++ js " " ++ str_or (Has (castlingText (castlingRights (state s)))) (js "-") in
      let fen := fen ++ js " " ++ str_or (enPassantTarget (state s)) (js "-") in
      let fen := fen ++ js " " ++ numToString (halfMoveClock (state s)) in
      let fen := fen ++ js " " ++ numToString (fullMoveNumber (state s)) in
      Some fen
  end.

(** The loop over the characters of one rank in [updateBoardFromFEN]:
    a digit 1 to 8 pushes that many spaces, any other character is pushed as a
    piece. *)
Definition decode_rank (r : list N) : list N :=
  flat_map (fun c => if ((49 <=? c) && (c <=? 56))%N
                     then replicate (N.to_nat (c - 48)) 32%N
                     else [c]) r.

(** The loop over [rowIndex] in [updateBoardFromFEN]; [None] when
    [rows[rowIndex]] is undefined (a TypeError). *)
Definition decode_rows (rows : list (list N)) : option (list (list N)) :=
  fold_left (fun acc rowIndex =>
               match acc, rows !! rowIndex with
               | Some newBoard, Some r => Some (newBoard ++ [decode_rank r])
               | _, _ => None
               end) (seq 0 8) (Some []).

(** [updateBoardFromFEN].  An exception leaves what was assigned before it:
    nothing when a rank is missing, the board alone when the castling field is
    missing. *)
Definition updateBoardFromFEN (st : ChessState) (fen : list N) : ChessState :=
  let parts := split_on 32%N fen in
  let position := default [] (parts !! 0%nat) in
  match decode_rows (split_on 47%N position) with
  | None => st
  | Some newBoard =>
      match parts !! 2%nat with
      | None =>
          mkChessState newBoard (perspective st) (lastMove st) (check st)
                       (castlingRights st) (enPassantTarget st)
                       (halfMoveClock st) (fullMoveNumber st)
      | Some castling =>
          mkChessState newBoard (perspective st) (lastMove st) (check st)
            (mkCastling (includes 75%N castling) (includes 81%N castling)
                        (includes 107%N castling) (includes 113%N castling))
            (match parts !! 3%nat with
             | None => Absent
             | Some enPassant => if str_eqb enPassant (js "-") then Null else Has enPassant
             end)
            (parseInt10_opt (parts !! 4%nat))
            (parseInt10_opt (parts !! 5%nat))
      end
  end.

(** ** ChessGame: the reply parsers *)

(** [m ? (m[1].toLowerCase() === 'ninguno' ? null : m[1].toLowerCase()) : null] *)
Definition checkPosition_of (m : option (list N)) : field (list N) :=
  match m with
  | None => Null
  | Some g => if str_eqb (toLowerCase g) (js "ninguno") then Null else Has (toLowerCase g)
  end.

(** The winner computed by both parsers. *)
Definition winner_of (this : Session) (isCheckmate isDraw : field bool) : field Winner :=
  if truthy_bool isCheckmate then Has (Won (currentTurn this))
  else if truthy_bool isDraw then Has Draw
  else Null.

(** [parseMoveResponse].  On a string no step of the [try] block throws. *)
Definition parseMoveResponse (this : Session) (response : list N) : MoveResult :=
  let validMatch := re_match "MOVIMIENTO_VALIDO:" grp_truefalse response in
  let normalizedMatch := re_match "MOVIMIENTO_NORMALIZADO:" grp_move response in
  let reasonMatch := re_match "RAZON:" grp_line response in
  let checkMatch := re_match "JAQUE:" grp_truefalse response in
  let checkmateMatch := re_match "JAQUE_MATE:" grp_truefalse response in
  let drawMatch := re_match "TABLAS:" grp_truefalse response in
  let checkPositionMatch := re_match "POSICION_JAQUE:" grp_square_or_none response in
  let captureMatch := re_match "CAPTURA:" grp_truefalse response in
  let pieceMoved := re_match "PIEZA_MOVIDA:" grp_line response in
  let fenMatch := re_match "FEN_RESULTANTE:" grp_line response in
  let valid := flag_of validMatch in
  let normalizedMove :=
    match normalizedMatch with Some g => Has (toLowerCase g) | None => Null end in
  let reason :=
    match reasonMatch with Some g => trim g | None => js "Movimiento inválido" end in
  let isCheck := flag_of checkMatch in
  let isCheckmate := flag_of checkmateMatch in
  let isDraw := flag_of drawMatch in
  let checkPosition := checkPosition_of checkPositionMatch in
  let isCapture := flag_of captureMatch in
  let pieceMovedText := match pieceMoved with Some g => trim g | None => [] end in
  let fenResult := match fenMatch with Some g => Has (trim g) | None => Null end in
  let gameOver := js_or isCheckmate isDraw in
  let winner := winner_of this isCheckmate isDraw in
  mkMoveResult valid Absent normalizedMove (Has reason) Absent isCheck isCheckmate
               isDraw checkPosition gameOver winner isCapture (Has pieceMovedText)
               Absent fenResult.

(** [parseAIResponse] *)
Definition parseAIResponse (this : Session) (response : list N) : MoveResult :=
  let moveMatch := re_match "MOVIMIENTO:" grp_move response in
  let explanationMatch := re_match "EXPLICACION_BREVE:" grp_line response in
  let checkMatch := re_match "JAQUE:" grp_truefalse response in
  let checkmateMatch := re_match "JAQUE_MATE:" grp_truefalse response in
  let drawMatch := re_match "TABLAS:" grp_truefalse response in
  let checkPositionMatch := re_match "POSICION_JAQUE:" grp_square_or_none response in
  let captureMatch := re_match "CAPTURA:" grp_truefalse response in
  let pieceMoved := re_match "PIEZA_MOVIDA:" grp_line response in
  let fenMatch := re_match "FEN_RESULTANTE:" grp_line response in
  match moveMatch with
  | None => invalidResult (js "La IA no generó un movimiento válido")
  | Some g =>
      let moveText := toLowerCase g in
      let explanation :=
        match explanationMatch with Some e => trim e | None => js "Sin explicación" end in
      let isCheck := flag_of checkMatch in
      let isCheckmate := flag_of checkmateMatch in
      let isDraw := flag_of drawMatch in
      let checkPosition := checkPosition_of checkPositionMatch in
      let isCapture := flag_of captureMatch in
      let pieceMovedText := match pieceMoved with Some p => trim p | None => [] end in
      let fenResult := match fenMatch with Some f => Has (trim f) | None => Null end in
      let gameOver := js_or isCheckmate isDraw in
      let winner := winner_of this isCheckmate isDraw in
      let messageIntro :=
        if truthy_bool isCheckmate then js "¡Jaque mate! Mi movimiento final es:"
        else if truthy_bool isCheck then js "¡Jaque! He movido:"
        else if truthy_bool isCapture then js "He capturado:"
        else js "He movido:" in
      mkMoveResult (Has true) (Has moveText) (Has moveText) Absent (Has explanation)
                   isCheck isCheckmate isDraw checkPosition gameOver winner isCapture
                   (Has pieceMovedText) (Has messageIntro) fenResult
  end.

(** [applyMove].  It reads [this.currentTurn] and writes [this.state] and
    [this.winner]. *)
Definition applyMove (this : Session) (moveResult : MoveResult) : Session :=
  if truthy_bool (r_valid moveResult) then
    let st := state this in
    let st :=
      match r_fenResult moveResult with
      | Has (c :: t) => updateBoardFromFEN st (c :: t)
      | _ => st
      end in
    let st :=
      mkChessState (board st) (perspective st) (r_normalizedMove moveResult)
                   (r_checkPosition moveResult) (castlingRights st)
                   (enPassantTarget st) (halfMoveClock st)
                   (match currentTurn this with
                    | Player2 => num_incr (fullMoveNumber st)
                    | Player1 => fullMoveNumber st
                    end) in
    let this := set_state this st in
    if truthy_bool (r_gameOver moveResult) then set_winner this (r_winner moveResult)
    else this
  else this.

(** ** board_renderer.js *)

(** [symbols[piece] || ' '] with the Unicode table; [piece] is undefined when
    the rank is too short. *)
Definition pieceSymbol (piece : option N) : list N :=
  match piece with
  | Some 75%N => js "♔" | Some 81%N => js "♕" | Some 82%N => js "♖"
  | Some 66%N => js "♗" | Some 78%N => js "♘" | Some 80%N => js "♙"
  | Some 107%N => js "♚" | Some 113%N => js "♛" | Some 114%N => js "♜"
  | Some 98%N => js "♝" | Some 110%N => js "♞" | Some 112%N => js "♟"
  | _ => js " "
  end.

(** One turn of the loop over [row] in [renderChessBoard]; [None] when
    [board[displayRow]] is undefined (a TypeError).  The highlight computed by
    [getSquareContent] is not used by the output. *)
Definition renderRow (b : list (list N)) (black : bool) (output : option (list N))
  (row : nat) : option (list N) :=
  let displayRow := if black then row else (7 - row)%nat in
  let rowNumber := N.of_nat (8 - displayRow) in
  match output, b !! displayRow with
  | Some output, Some r =>
      let output := output ++ N_to_js rowNumber ++ js " │" in
      let output :=
        fold_left (fun out col =>
                     let displayCol := if black then (7 - col)%nat else col in
                     out ++ js " " ++ pieceSymbol (r !! displayCol) ++ js " │")
                  (seq 0 8) output in
      let output := output ++ js " " ++ N_to_js rowNumber ++ [10%N] in
      Some (output ++
            (if (row <? 7)%nat
             then js "  ├───┼───┼───┼───┼───┼───┼───┼───┤  " ++ [10%N]
             else js "  └───┴───┴───┴───┴───┴───┴───┴───┘  " ++ [10%N]))
  | _, _ => None
  end.

(** [renderChessBoard(board, { perspective, lastMove, checkPosition })] *)
Definition renderChessBoard (b : list (list N)) (perspective : list N)
  : option (list N) :=
  let black := str_eqb perspective (js "black") in
  let output := js "    a   b   c   d   e   f   g   h    " ++ [10%N]
                ++ js "  ┌───┬───┬───┬───┬───┬───┬───┬───┐  " ++ [10%N] in
  match fold_left (renderRow b black) (seq 0 8) (Some output) with
  | None => None
  | Some output =>
      let output := output ++ js "    a   b   c   d   e   f   g   h    " ++ [10%N] in
      Some (js "```" ++ [10%N] ++ output ++ js "```")
  end.

(** ** BaseGame: queries *)

(** [isPlayerTurn] *)
Definition isPlayerTurn (this : Session) (playerId : list N) : bool :=
  match currentTurn this with
  | Player1 => str_eqb playerId (pid (player1 this))
  | Player2 => str_eqb playerId (pid (player2 this))
  end.

(** [isAITurn] *)
Definition isAITurn (this : Session) : bool :=
  vsAI this && bool_decide (currentTurn this = Player2).

(** [switchTurn] *)
Definition switchTurn (this : Session) : Session :=
  set_currentTurn this
    (match currentTurn this with Player1 => Player2 | Player2 => Player1 end).

(** [isFinished]: [this.winner !== null]. *)
Definition isFinished (this : Session) : bool :=
  match winner this with
  | Null => false
  | _ => true
  end.

(** [getEndGameMessage] *)
Definition getEndGameMessage (this : Session) : list N :=
  if negb (isFinished this) then js "El juego aún está en curso."
  else match winner this with
       | Has (Won Player1) => js "¡" ++ pname (player1 this) ++ js " ha ganado!"
       | Has (Won Player2) => js "¡" ++ pname (player2 this) ++ js " ha ganado!"
       | Has Draw => js "¡El juego ha terminado en empate!"
       | _ => js "El juego ha terminado."
       end.

(** [new GameClass()] followed by [initialize(...)], the only way the program
    creates a session: [type] and [endTime] are those of the constructors. *)
Definition initialize (player1Id player1Name player2Id player2Name : list N)
  (vsAI : bool) (now : N) : Session :=
  mkSession (js "ajedrez") initializeGameState
            (mkPlayer player1Id player1Name) (mkPlayer player2Id player2Name)
            Player1 Null [] now None vsAI.

(** ** ChessGame: prompts and rendering *)

Definition colourName (white : bool) : list N :=
  if white then js "Blancas" else js "Negras".

(** [buildMovePrompt]; [None] when [generateFEN] throws. *)
Definition buildMovePrompt (this : Session) (playerId moveText : list N)
  : option (list N) :=
  let isP1 := str_eqb playerId (pid (player1 this)) in
  let currentPlayerName := if isP1 then pname (player1 this) else pname (player2 this) in
  match generateFEN this with
  | None => None
  | Some fen =>
      Some (js "
Eres un experto en ajedrez. Estás evaluando un movimiento en una partida de ajedrez.

Estado actual de la partida:
- FEN: " ++ fen ++ js "
- Turno: " ++ colourName (bool_decide (currentTurn this = Player1)) ++ js "
- Último movimiento: " ++ str_or (lastMove (state this)) (js "Ninguno (inicio de partida)") ++ js "

El jugador " ++ currentPlayerName ++ js " (" ++ colourName isP1 ++ js ") quiere hacer el siguiente movimiento:
" ++ dquote ++ moveText ++ dquote ++ js "

Analiza si este movimiento es legal según las reglas del ajedrez. Ten en cuenta:
- La notación puede ser algebraica (e2e4) o en lenguaje natural (e2 hacia e4).
- Verifica enroques, capturas al paso (en passant) y promociones.
- Verifica que el rey no quede o esté en jaque (si corresponde).

Responde con el siguiente formato exacto:

MOVIMIENTO_VALIDO: [true/false]
MOVIMIENTO_NORMALIZADO: [notación algebraica estándar, por ejemplo " ++ dquote ++ js "e2e4" ++ dquote ++ js " o " ++ dquote ++ js "e7e8q" ++ dquote ++ js " para promoción]
RAZON: [razón si es inválido, o descripción del movimiento si es válido]
JAQUE: [true/false]
JAQUE_MATE: [true/false]
TABLAS: [true/false]
POSICION_JAQUE: [posición del rey en jaque, por ejemplo " ++ dquote ++ js "e1" ++ dquote ++ js ", o " ++ dquote ++ js "ninguno" ++ dquote ++ js "]
CAPTURA: [true/false]
PIEZA_MOVIDA: [tipo de pieza movida]
FEN_RESULTANTE: [nueva posición en formato FEN]
")
  end.

(** A rejected attempt: [{ moveText, reason }]. *)
Definition Intento : Type := (list N * field (list N))%type.

(** One line of the move history in [buildAIPrompt]. *)
Definition historyLine (this : Session) (m : Move) : list N :=
  colourName (str_eqb (mv_player m) (pid (player1 this))) ++ js ": " ++ tmpl (mv_move m).

(** The text about earlier failed attempts in [buildAIPrompt]. *)
Definition intentosFallidosMsg (historialIntentos : list Intento) : list N :=
  match historialIntentos with
  | [] => []
  | _ =>
      [10%N] ++ js "INTENTOS PREVIOS FALLIDOS (estos movimientos son ILEGALES, NO los repitas):"
      ++ [10%N]
      ++ concat (imap (fun index (intento : Intento) =>
                         js "- Intento " ++ N_to_js (N.of_nat (index + 1)) ++ js ": "
                         ++ dquote ++ fst intento ++ dquote
                         ++ js " - Razón: " ++ tmpl (snd intento) ++ [10%N])
                      historialIntentos)
      ++ [10%N] ++ js "Asegúrate de generar un movimiento LEGAL que cumpla con las reglas del ajedrez."
  end.

(** [buildAIPrompt]; [None] when [generateFEN] throws. *)
Definition buildAIPrompt (this : Session) (historialIntentos : list Intento)
  : option (list N) :=
  match generateFEN this with
  | None => None
  | Some fen =>
      let aiWhite :=
        str_eqb (pid (player2 this)) (js "AI")
        && negb (bool_decide (currentTurn this = Player2)) in
      let moveHistoryText := join_with [10%N] (List.map (historyLine this) (moveHistory this)) in
      Some (js "
Eres un experto en ajedrez jugando una partida. Estás jugando con las " ++ colourName aiWhite ++ js ".

Estado actual de la partida:
- FEN: " ++ fen ++ js "
- Turno: " ++ colourName (bool_decide (currentTurn this = Player1)) ++ js "
- Último movimiento del oponente: " ++
        (match last (moveHistory this) with
         | Some m => tmpl (mv_move m)
         | None => js "Ninguno (inicio de partida)"
         end) ++ js "

Historial de movimientos:
" ++ str_or (Has moveHistoryText) (js "No hay movimientos previos")
        ++ intentosFallidosMsg historialIntentos ++ js "

Genera tu próximo movimiento. Debes elegir un movimiento LEGAL según las reglas del ajedrez.
Si es posible, elige un movimiento bueno estratégicamente.
Asegúrate de que tu movimiento:
- No deje tu rey en jaque
- Respete los movimientos legales de cada pieza
- No intente mover una pieza a través de otras piezas (excepto el caballo)
- No mueva una pieza a una casilla ocupada por otra pieza del mismo color

Responde con el siguiente formato exacto:

MOVIMIENTO: [tu movimiento en notación algebraica, por ejemplo " ++ dquote ++ js "e2e4" ++ dquote ++ js " o " ++ dquote ++ js "e7e8q" ++ dquote ++ js " para promoción]
EXPLICACION_BREVE: [explicación breve de por qué elegiste este movimiento]
JAQUE: [true/false]
JAQUE_MATE: [true/false]
TABLAS: [true/false]
POSICION_JAQUE: [posición del rey en jaque, por ejemplo " ++ dquote ++ js "e1" ++ dquote ++ js ", o " ++ dquote ++ js "ninguno" ++ dquote ++ js "]
CAPTURA: [true/false]
PIEZA_MOVIDA: [tipo de pieza movida]
FEN_RESULTANTE: [nueva posición en formato FEN]
")
  end.

(** One entry of the recent-moves text of [renderGame]; [index] counts within
    the last five moves. *)
Definition recentMoveText (this : Session) (nRecent : nat) (index : nat) (m : Move)
  : list N :=
  let moveNumber := ((length (moveHistory this) - nRecent + index + 2) / 2)%nat in
  N_to_js (N.of_nat moveNumber)
  ++ (if str_eqb (mv_player m) (pid (player1 this)) then js "." else js "...")
  ++ js " " ++ tmpl (mv_move m).

(** [renderGame], as the message of its result; [None] when the renderer
    throws. *)
Definition renderGame (this : Session) : option (list N) :=
  let statusMessage :=
    if isFinished this then getEndGameMessage this
    else if truthy_str (check (state this)) then js "¡Jaque al rey!"
    else [] in
  let turnMessage :=
    if isFinished this then js "Juego terminado."
    else js "Turno de "
         ++ (match currentTurn this with
             | Player1 => pname (player1 this)
             | Player2 => pname (player2 this)
             end)
         ++ js " (" ++ colourName (bool_decide (currentTurn this = Player1)) ++ js ")" in
  match renderChessBoard (board (state this)) (perspective (state this)) with
  | None => None
  | Some boardASCII =>
      let message :=
        (match statusMessage with
         | [] => []
         | _ => statusMessage ++ [10%N; 10%N]
         end) ++ boardASCII ++ [10%N] ++ turnMessage in
      match moveHistory this with
      | [] => Some message
      | _ =>
          let recentMoves := drop (length (moveHistory this) - 5) (moveHistory this) in
          let historyText :=
            join_with (js " ") (imap (recentMoveText this (length recentMoves)) recentMoves) in
          Some (message ++ [10%N; 10%N] ++ js "Movimientos recientes: " ++ historyText)
      end
  end.

(** ** BaseGame: the operations *)

(** The object [{ success, message, gameOver }]. *)
Record Result : Type := mkResult {
  success : bool;
  message : list N;
  gameOver : field bool
}.

(** The block shared, statement for statement, by [processMove] and
    [generateAIMove] once a move is accepted: push the move, [applyMove], then
    switch the turn or record winner and end time.  [moveTime] and [endNow] are
    the two readings of [new Date()]. *)
Definition acceptMove (this : Session) (playerId : list N) (moveText : field (list N))
  (moveResult : MoveResult) (moveTime endNow : N) : Session :=
  let this := push_move this (mkMove playerId moveText (r_normalizedMove moveResult) moveTime) in
  let this := applyMove this moveResult in
  if negb (truthy_bool (r_gameOver moveResult)) then switchTurn this
  else set_endTime (set_winner this (r_winner moveResult)) (Some endNow).

(** [processMove].  [ask] is [iaService.sendMessageToAI]. *)
Definition processMove (ask : list N -> option (list N)) (moveTime endNow : N)
  (this : Session) (playerId moveText : list N) : Session * Result :=
  if isFinished this then
    (this, mkResult false (js "El juego ya ha terminado. " ++ getEndGameMessage this) (Has true))
  else if negb (isPlayerTurn this playerId) then
    (this, mkResult false (js "No es tu turno para jugar.") (Has false))
  else
    let caught :=
      mkResult false
        (js "Ha ocurrido un error al procesar tu movimiento. Por favor, inténtalo de nuevo.")
        (Has false) in
    match buildMovePrompt this playerId moveText with
    | None => (this, caught)
    | Some prompt =>
        match ask prompt with
        | None => (this, caught)
        | Some response =>
            let moveResult := parseMoveResponse this response in
            if truthy_bool (r_valid moveResult) then
              let this := acceptMove this playerId (Has moveText) moveResult moveTime endNow in
              match renderGame this with
              | None => (this, caught)
              | Some rendered => (this, mkResult true rendered (r_gameOver moveResult))
              end
            else
              (this, mkResult false
                       (js "Movimiento inválido: "
                        ++ str_or (r_reason moveResult) (js "Movimiento no permitido"))
                       (Has false))
        end
    end.

(** [validateAIMove]; the second component tells whether the service was
    called. *)
Definition validateAIMove (ask : list N -> option (list N)) (this : Session)
  (moveText : list N) : MoveResult * bool :=
  let caught := invalidResult (js "Error al validar el movimiento de IA.") in
  match buildMovePrompt this (pid (player2 this)) moveText with
  | None => (caught, false)
  | Some prompt =>
      match ask prompt with
      | None => (caught, true)
      | Some response => (parseMoveResponse this response, true)
      end
  end.

(** How the [while] loop of [generateAIMove] ends. *)
Inductive LoopEnd : Type :=
| LoopFound (moveResult : MoveResult)   (* movimientoValido *)
| LoopExhausted                         (* intentos reached MAX_INTENTOS *)
| LoopThrew.                            (* an exception reached the outer catch *)

Definition MAX_INTENTOS : nat := 3.

(** The [while] loop of [generateAIMove].  [remaining] is
    [MAX_INTENTOS - intentos], so the loop condition [intentos < MAX_INTENTOS]
    is [remaining <> 0]; [oracle k] is the call to the service after [k] earlier
    calls of this operation.  The loop returns how it ended and the final value
    of [intentos]. *)
Fixpoint attemptLoop (oracle : nat -> list N -> option (list N)) (this : Session)
  (remaining intentos calls : nat) (historialIntentos : list Intento)
  : LoopEnd * nat :=
  match remaining with
  | O => (LoopExhausted, intentos)
  | S remaining =>
      let intentos := S intentos in
      match buildAIPrompt this historialIntentos with
      | None => (LoopThrew, intentos)
      | Some prompt =>
          match oracle calls prompt with
          | None => (LoopThrew, intentos)
          | Some response =>
              let moveResult := parseAIResponse this response in
              if truthy_bool (r_valid moveResult) then
                let '(validationResult, called) :=
                  validateAIMove (oracle (S calls)) this (tmpl (r_moveText moveResult)) in
                if truthy_bool (r_valid validationResult) then
                  (LoopFound (spread moveResult validationResult), intentos)
                else
                  attemptLoop oracle this remaining intentos
                    (if called then S (S calls) else S calls)
                    (historialIntentos
                     ++ [(tmpl (r_moveText moveResult), r_reason validationResult)])
              else
                attemptLoop oracle this remaining intentos (S calls)
                  (historialIntentos ++ [(js "formato_inválido", r_reason moveResult)])
          end
      end
  end.

(** [generateAIMove]; the result is [None] for the [null] of the guard. *)
Definition generateAIMove (oracle : nat -> list N -> option (list N))
  (moveTime endNow : N) (this : Session) : Session * option Result :=
  if negb (vsAI this) || negb (isAITurn this) || isFinished this then (this, None)
  else
    let caught :=
      mkResult false
        (js "Ha ocurrido un error con el movimiento de la IA. Por favor, inténtalo de nuevo.")
        (Has false) in
    match fst (attemptLoop oracle this MAX_INTENTOS 0 0 []) with
    | LoopThrew => (this, Some caught)
    | LoopExhausted =>
        (this, Some (mkResult false
           (js "No pude encontrar un movimiento válido después de varios intentos. Por favor, intenta reiniciar el juego.")
           (Has false)))
    | LoopFound moveResult =>
        let this := acceptMove this (pid (player2 this)) (r_moveText moveResult)
                               moveResult moveTime endNow in
        match renderGame this with
        | None => (this, Some caught)
        | Some rendered =>
            (this, Some (mkResult true
               (str_or (r_messageIntro moveResult) (js "He movido:") ++ js " "
                ++ tmpl (r_moveText moveResult) ++ [10%N; 10%N] ++ rendered)
               (r_gameOver moveResult)))
        end
    end.

(** [surrender]; the result is [None] when [renderGame] throws, which
    [surrender] does not catch (the session is changed by then). *)
Definition surrender (now endNow : N) (this : Session) (playerId : list N)
  : Session * option Result :=
  if isFinished this then
    (this, Some (mkResult false
                   (js "El juego ya ha terminado. " ++ getEndGameMessage this) (Has true)))
  else if negb (str_eqb playerId (pid (player1 this)))
          && negb (str_eqb playerId (pid (player2 this))) then
    (this, Some (mkResult false (js "No estás participando en este juego.") (Has false)))
  else
    let isP1 := str_eqb playerId (pid (player1 this)) in
    let this := push_move this (mkMove playerId (Has (js "surrender")) Absent now) in
    let this := set_winner this (Has (Won (if isP1 then Player2 else Player1))) in
    let this := set_endTime this (Some endNow) in
    match renderGame this with
    | None => (this, None)
    | Some rendered =>
        (this, Some (mkResult true
           ((if isP1 then pname (player1 this) else pname (player2 this))
            ++ js " se ha rendido. " ++ getEndGameMessage this ++ [10%N; 10%N] ++ rendered)
           (Has true)))
    end.

(** ** GameManager: the session registry *)

(** What [GAME_TYPES[key]] evaluates to: a registered game class, another
    truthy value (a property inherited from [Object.prototype]), or
    undefined. *)
Inductive GameTypeLookup : Type :=
| IsChessGame
| NotAGameClass
| NoSuchType.

Definition objectPrototypeKeys : list (list N) :=
  [ js "constructor"; js "__proto__"; js "hasOwnProperty"; js "isPrototypeOf";
    js "propertyIsEnumerable"; js "toLocaleString"; js "toString"; js "valueOf";
    js "__defineGetter__"; js "__defineSetter__"; js "__lookupGetter__";
    js "__lookupSetter__" ].

Definition GAME_TYPES (key : list N) : GameTypeLookup :=
  if str_eqb key (js "ajedrez") || str_eqb key (js "chess") then IsChessGame
  else if bool_decide (key ∈ objectPrototypeKeys) then NotAGameClass
  else NoSuchType.

(** The registry: the map of active sessions, and the documents written under
    the data directory, by channel. *)
Record GameManager : Type := mkGameManager {
  activeSessions : gmap (list N) Session;
  savedFiles : gmap (list N) Session
}.

(** [saveGameState]; [fsOk] tells whether [mkdir] and [writeFile] succeed.
    When they throw, the rest of the [try] block is skipped. *)
Definition saveGameState (fsOk : bool) (this : GameManager) (channelId : list N)
  (game : Session) : GameManager :=
  if fsOk then
    mkGameManager
      (if isFinished game then delete channelId (activeSessions this)
       else activeSessions this)
      (<[channelId := game]> (savedFiles this))
  else this.

(** The objects returned by [startGame]. *)
Inductive StartResult : Type :=
| AlreadyActive (game : Session)     (* { error: 'already_active', game } *)
| UnknownGame                        (* { error: 'unknown_game' } *)
| InitializationFailed               (* { error: 'initialization_failed' } *)
| Started (game : Session).          (* { success: true, game } *)

Definition unfinishedSession (this : GameManager) (channelId : list N)
  : option Session :=
  match activeSessions this !! channelId with
  | Some currentGame => if isFinished currentGame then None else Some currentGame
  | None => None
  end.

(** [startGame].  [opponent] is [None] for a game against the service.  A
    truthy [GAME_TYPES] entry that is no game class makes [new GameClass()] or
    [game.initialize] throw, which the [catch] turns into
    ['initialization_failed']. *)
Definition startGame (fsOk : bool) (now : N) (this : GameManager)
  (channelId userId username gameType : list N) (opponent : option Player)
  : GameManager * StartResult :=
  match unfinishedSession this channelId with
  | Some currentGame => (this, AlreadyActive currentGame)
  | None =>
      let normalizedType := toLowerCase gameType in
      match GAME_TYPES normalizedType with
      | NoSuchType => (this, UnknownGame)
      | NotAGameClass => (this, InitializationFailed)
      | IsChessGame =>
          let playAgainstAI := bool_decide (opponent = None) in
          let opponentId := match opponent with None => js "AI" | Some o => pid o end in
          let opponentName := match opponent with None => js "IA" | Some o => pname o end in
          let game := initialize userId username opponentId opponentName playAgainstAI now in
          let this := mkGameManager (<[channelId := game]> (activeSessions this))
                                    (savedFiles this) in
          let this := saveGameState fsOk this channelId game in
          (this, Started game)
      end
  end.

(** ** Notions used by the statements *)

(** The sessions the program can hold: created by [initialize], then changed
    by [processMove], [generateAIMove] and [surrender], whatever the service
    answers and whoever calls. *)
Inductive reachable : Session -> Prop :=
| reach_initialize p1 n1 p2 n2 ai now :
    reachable (initialize p1 n1 p2 n2 ai now)
| reach_processMove s ask t1 t2 playerId moveText :
    reachable s -> reachable (fst (processMove ask t1 t2 s playerId moveText))
| reach_generateAIMove s oracle t1 t2 :
    reachable s -> reachable (fst (generateAIMove oracle t1 t2 s))
| reach_surrender s t1 t2 playerId :
    reachable s -> reachable (fst (surrender t1 t2 s playerId)).

(** The label occurs somewhere in the text, in any letter case. *)
Fixpoint occurs_ci (lit s : list N) : bool :=
  prefix_ci lit s ||
  match s with
  | [] => false
  | _ :: t => occurs_ci lit t
  end.

Definition otherSide (p : Side) : Side :=
  match p with Player1 => Player2 | Player2 => Player1 end.

(** Sample data for the closed instances below. *)
Definition ana_vs_ai : Session :=
  initialize (js "1001") (js "Ana") (js "AI") (js "IA") true 0%N.
Definition ana_vs_bob : Session :=
  initialize (js "1001") (js "Ana") (js "1002") (js "Bob") false 0%N.

Definition reply_e2e4 : list N := js "MOVIMIENTO_VALIDO: true
MOVIMIENTO_NORMALIZADO: e2e4
RAZON: Avance de peón
JAQUE: false
JAQUE_MATE: false
TABLAS: false
POSICION_JAQUE: ninguno
CAPTURA: false
PIEZA_MOVIDA: peón
FEN_RESULTANTE: rnbqkbnr/pppppppp/8/8/4P3/8/PPPP1PPP/RNBQKBNR b KQkq e3 0 1
".

Definition reply_e2e4_no_fen : list N := js "MOVIMIENTO_VALIDO: true
MOVIMIENTO_NORMALIZADO: e2e4
RAZON: Avance de peón
".

Definition gen_e7e5 : list N := js "MOVIMIENTO: e7e5
EXPLICACION_BREVE: Control del centro
JAQUE: false
JAQUE_MATE: true
TABLAS: false
FEN_RESULTANTE: 8/8/8/8/8/8/8/8 w - - 0 1
".

Definition reply_e7e5 : list N := js "MOVIMIENTO_VALIDO: true
MOVIMIENTO_NORMALIZADO: e7e5
RAZON: Avance de peón
JAQUE: false
JAQUE_MATE: false
TABLAS: false
FEN_RESULTANTE: rnbqkbnr/pppp1ppp/8/4p3/4P3/8/PPPP1PPP/RNBQKBNR w KQkq e6 0 2
".

(** The session after Ana's e2e4 against the service. *)
Definition after_e2e4 : Session :=
  fst (processMove (fun _ => Some reply_e2e4) 1%N 2%N ana_vs_ai (js "1001") (js "e2e4")).

(** A service that answers the generation request with [gen_e7e5] and the
    validation request with [reply_e7e5]. *)
Definition oracle_e7e5 (k : nat) (_ : list N) : option (list N) :=
  match k with
  | O => Some gen_e7e5
  | _ => Some reply_e7e5
  end.

(** A service whose answers never hold a move: three attempts, then failure. *)
Definition oracle_mute (_ : nat) (_ : list N) : option (list N) := Some (js "No sé.").

(** A reply that asserts validity with a rank of nine squares. *)
Definition reply_nine : list N := js "MOVIMIENTO_VALIDO: true
MOVIMIENTO_NORMALIZADO: e2e4
FEN_RESULTANTE: rnbqkbnr/pppppppp/8/8/4P3/8/PPPP1PPPP/RNBQKBNR b KQkq e3 0 1
".

Definition after_nine : Session :=
  fst (processMove (fun _ => Some reply_nine) 1%N 2%N ana_vs_ai (js "1001") (js "e2e4")).

Definition emptyManager : GameManager := mkGameManager ∅ ∅.

(** *** Well-formed canonical states *)

(** A square that the FEN text can carry: not the rank separator and not a
    digit from 1 to 8 (a space is the empty square). *)
Definition wf_square (c : N) : bool :=
  negb (c =? 47)%N && negb ((49 <=? c) && (c <=? 56))%N.

(** Eight ranks of eight such squares. *)
Definition wf_board (b : list (list N)) : bool :=
  (length b =? 8)%nat
  && forallb (fun r => (length r =? 8)%nat && forallb wf_square r) b.

(** No en-passant square, or a text that is not empty, is not "-" and holds
    no space. *)
Definition wf_enPassant (e : field (list N)) : bool :=
  match e with
  | Null => true
  | Has (c :: t) => negb (includes 32%N (c :: t)) && negb (str_eqb (c :: t) (js "-"))
  | _ => false
  end.

(** A clock is NaN or a safe integer, of absolute value below 2^53. *)
Definition wf_clock (x : jsnum) : bool :=
  match x with
  | NaN => true
  | Int z => (Z.abs z <? 2 ^ 53)%Z
  end.

Definition wf_state (st : ChessState) : bool :=
  wf_board (board st) && wf_enPassant (enPassantTarget st)
  && wf_clock (halfMoveClock st) && wf_clock (fullMoveNumber st).

(** The inner loop of [generateFEN] by the squares themselves, and the text it
    adds for one rank. *)
Definition enc_step (acc : list N * N) (c : N) : list N * N :=
  let '(fen, emptySquares) := acc in
  if (c =? 32)%N then (fen, (emptySquares + 1)%N)
  else ((if (0 <? emptySquares)%N then fen ++ N_to_js emptySquares else fen) ++ [c], 0%N).

Definition flush (acc : list N * N) : list N :=
  if (0 <? snd acc)%N then fst acc ++ N_to_js (snd acc) else fst acc.

Definition enc_rank (r : list N) : list N := flush (fold_left enc_step r ([], 0%N)).

(** [updateBoardFromFEN] as it acts on the game object: it assigns to
    [this.state] and to nothing else. *)
Definition updateBoardFromFEN_on (this : Session) (fen : list N) : Session :=
  set_state this (updateBoardFromFEN (state this) fen).

(** A reply that asserts validity with a FEN of three fields. *)
Definition reply_three_fields : list N := js "MOVIMIENTO_VALIDO: true
MOVIMIENTO_NORMALIZADO: e2e4
FEN_RESULTANTE: rnbqkbnr/pppppppp/8/8/4P3/8/PPPP1PPP/RNBQKBNR b KQkq
".

Definition after_three_fields : Session :=
  fst (processMove (fun _ => Some reply_three_fields) 1%N 2%N ana_vs_ai
                   (js "1001") (js "e2e4")).

(** The session [s] with another en-passant target. *)
Definition with_enPassant (s : Session) (e : field (list N)) : Session :=
  set_state s (mkChessState (board (state s)) (perspective (state s))
                            (lastMove (state s)) (check (state s))
                            (castlingRights (state s)) e
                            (halfMoveClock (state s)) (fullMoveNumber (state s))).

(** A finished game, and registries that hold a finished and an unfinished
    game for the channel "chan". *)
Definition finished_game : Session := fst (surrender 5%N 6%N after_e2e4 (js "1001")).
Definition registry_finished : GameManager :=
  mkGameManager (<[js "chan" := finished_game]> ∅) ∅.
Definition registry_unfinished : GameManager :=
  mkGameManager (<[js "chan" := after_e2e4]> ∅) ∅.

(** One operation on a session, whatever the service answers. *)
Inductive step : Session -> Session -> Prop :=
| step_processMove s ask t1 t2 playerId moveText :
    step s (fst (processMove ask t1 t2 s playerId moveText))
| step_generateAIMove s oracle t1 t2 :
    step s (fst (generateAIMove oracle t1 t2 s))
| step_surrender s t1 t2 playerId :
    step s (fst (surrender t1 t2 s playerId)).

(** A move in coordinate notation, in lower case: file, rank, file, rank and
    an optional promotion piece. *)
Definition isLowerFile (c : N) : bool := ((97 <=? c) && (c <=? 104))%N.
Definition isLowerPromo (c : N) : bool :=
  ((c =? 113) || (c =? 114) || (c =? 98) || (c =? 110))%N.
Definition isMoveToken (m : list N) : bool :=
  match m with
  | [f1; r1; f2; r2] => isLowerFile f1 && isRank r1 && isLowerFile f2 && isRank r2
  | [f1; r1; f2; r2; p] =>
      isLowerFile f1 && isRank r1 && isLowerFile f2 && isRank r2 && isLowerPromo p
  | _ => false
  end.

(** A reply that validates a checkmate. *)
Definition reply_mate : list N := js "MOVIMIENTO_VALIDO: true
MOVIMIENTO_NORMALIZADO: d1h5
RAZON: Jaque mate
JAQUE: true
JAQUE_MATE: true
TABLAS: false
POSICION_JAQUE: e8
".

(** The service of [oracle_e7e5] for six calls, failing afterwards. *)
Definition oracle_six_calls (k : nat) (p : list N) : option (list N) :=
  if (k <? 6)%nat then oracle_e7e5 k p else None.

(** One rejected attempt. *)
Definition one_rejected : list Intento := [(js "a7a4", Has (js "El peón no puede avanzar tres casillas"))].

(** [generateFEN] as a property value. *)
Definition generateFEN_field (s : Session) : field (list N) :=
  match generateFEN s with Some fen => Has fen | None => Absent end.

(** A session whose board lost its ranks (as [loadState] could load it). *)
Definition without_ranks : Session :=
  set_state ana_vs_ai
    (mkChessState [] (js "white") Null Null (mkCastling true true true true) Null
                  (Int 0) (Int 1)).

(** ** Properties of the session state machine *)

(** *** What throws, and when *)

Lemma decode_rows_fold (rows : list (list N)) n : forall k acc b,
  fold_left (fun acc rowIndex =>
               match acc, rows !! rowIndex with
               | Some newBoard, Some r => Some (newBoard ++ [decode_rank r])
               | _, _ => None
               end) (seq k n) acc = Some b ->
  exists a, acc = Some a /\ length b = (length a + n)%nat.
Proof.
  induction n as [|n IH]; intros k acc b; cbn [seq fold_left].
  - intros ->. exists b. split; [reflexivity|lia].
  - intros H. destruct (IH _ _ _ H) as (a & Ha & Hl).
    destruct acc as [a0|]; [|discriminate].
    destruct (rows !! k) as [r|]; [|discriminate].
    injection Ha as <-. exists a0. split; [reflexivity|].
    rewrite length_app in Hl. simpl in Hl. lia.
Qed.

Lemma decode_rows_length (rows : list (list N)) b : decode_rows rows = Some b -> length b = 8%nat.
Proof.
  unfold decode_rows. intros H.
  destruct (decode_rows_fold _ _ _ _ _ H) as (a & Ha & Hl).
  injection Ha as <-. exact Hl.
Qed.

Lemma decode_rows_short (rows : list (list N)) : (length rows < 8)%nat -> decode_rows rows = None.
Proof.
  intros Hl. destruct (decode_rows rows) as [b|] eqn:E; [|reflexivity]. exfalso.
  revert E. unfold decode_rows.
  destruct rows as [|r0 [|r1 [|r2 [|r3 [|r4 [|r5 [|r6 [|r7 rows]]]]]]]];
    try (cbn; discriminate). simpl in Hl. lia.
Qed.

Lemma updateBoardFromFEN_board st fen :
  board (updateBoardFromFEN st fen) = board st \/
  length (board (updateBoardFromFEN st fen)) = 8%nat.
Proof.
  unfold updateBoardFromFEN.
  destruct (decode_rows _) as [b|] eqn:E; [|left; reflexivity].
  right. apply decode_rows_length in E.
  destruct (split_on 32%N fen !! 2%nat); exact E.
Qed.

Lemma acceptMove_board this playerId moveText mr t1 t2 :
  length (board (state this)) = 8%nat ->
  length (board (state (acceptMove this playerId moveText mr t1 t2))) = 8%nat.
Proof.
  intros H. unfold acceptMove, applyMove.
  assert (Hu : forall f, length (board (match f with
                                        | Has (c :: t) => updateBoardFromFEN (state this) (c :: t)
                                        | _ => state this
                                        end)) = 8%nat).
  { intros [| |[|c t]]; try exact H.
    destruct (updateBoardFromFEN_board (state this) (c :: t)) as [-> | E]; assumption. }
  destruct (truthy_bool (r_gameOver mr)), (truthy_bool (r_valid mr)); simpl;
    try exact H; apply Hu.
Qed.

Lemma fold_left_none {A : Type} (f : option A -> nat -> option A) (l : list nat) :
  (forall i, f None i = None) -> fold_left f l None = None.
Proof. intros Hf. induction l as [|i l IH]; [reflexivity|]. simpl. rewrite Hf. exact IH. Qed.

Lemma fold_guarded {A : Type} (P : nat -> Prop) (f : option A -> nat -> option A) :
  (forall i, f None i = None) ->
  (forall a i, is_Some (f (Some a) i) <-> P i) ->
  forall l a, is_Some (fold_left f l (Some a)) <-> Forall P l.
Proof.
  intros Hn Hs. induction l as [|i l IH]; intros a.
  - simpl. split; [constructor|]. intros _. eexists. reflexivity.
  - cbn [fold_left]. destruct (f (Some a) i) as [a'|] eqn:E.
    + rewrite IH. split.
      * intros H. constructor; [|exact H]. apply (Hs a i). rewrite E. eexists; reflexivity.
      * intros H. exact (Forall_inv_tail H).
    + rewrite fold_left_none by exact Hn. split.
      * intros [x Hx]. discriminate.
      * intros H. apply Forall_inv in H. apply (Hs a i) in H. rewrite E in H.
        destruct H as [x Hx]. discriminate.
Qed.

Lemma fen_row_guard (b : list (list N)) fen row :
  is_Some (fen_row b (Some fen) row) <-> (row < length b)%nat.
Proof.
  rewrite <- lookup_lt_is_Some. unfold fen_row.
  destruct (b !! row) as [r|].
  - destruct (fold_left _ _ _) as [x e]. split; intros _; eexists; reflexivity.
  - split; intros [x Hx]; discriminate.
Qed.

Lemma seq_bound_eight (P : nat -> nat) (n : nat) :
  (forall i, (i < 8)%nat -> (P i < 8)%nat) -> (exists i, (i < 8)%nat /\ P i = 7%nat) ->
  Forall (fun i => (P i < n)%nat) (seq 0 8) <-> (8 <= n)%nat.
Proof.
  intros Hb (i & Hi & Hi7). split.
  - intros H. rewrite Forall_forall in H. specialize (H i).
    assert (Hin : i ∈ seq 0 8) by (apply elem_of_seq; lia).
    specialize (H Hin). lia.
  - intros H. apply Forall_forall. intros j Hj. apply elem_of_seq in Hj.
    specialize (Hb j ltac:(lia)). lia.
Qed.

Lemma generateFEN_None_iff s :
  generateFEN s = None <-> (length (board (state s)) < 8)%nat.
Proof.
  unfold generateFEN.
  pose proof (fold_guarded (fun i => (i < length (board (state s)))%nat)
                (fen_row (board (state s))) (fun i => eq_refl)
                (fen_row_guard (board (state s))) (seq 0 8) []) as H.
  rewrite (seq_bound_eight (fun i => i) _ ltac:(auto) ltac:(exists 7%nat; split; [lia|reflexivity])) in H.
  destruct (fold_left _ _ _) as [fen|].
  - split; [discriminate|]. intros Hl. assert (is_Some (Some fen)) as Hs by (eexists; reflexivity).
    apply H in Hs. lia.
  - split; [|reflexivity]. intros _.
    destruct (le_lt_dec 8 (length (board (state s)))) as [Hl|Hl]; [|exact Hl].
    apply H in Hl. destruct Hl as [x Hx]. discriminate.
Qed.

Lemma renderRow_guard (b : list (list N)) black out row :
  is_Some (renderRow b black (Some out) row)
  <-> ((if black then row else 7 - row) < length b)%nat.
Proof.
  rewrite <- lookup_lt_is_Some. unfold renderRow.
  destruct (b !! (if black then row else (7 - row)%nat)) as [r|].
  - split; intros _; eexists; reflexivity.
  - split; intros [x Hx]; discriminate.
Qed.

Lemma renderChessBoard_None_iff (b : list (list N)) perspective :
  renderChessBoard b perspective = None <-> (length b < 8)%nat.
Proof.
  unfold renderChessBoard.
  set (black := str_eqb perspective (js "black")).
  set (o := js "    a   b   c   d   e   f   g   h    " ++ [10%N]
            ++ js "  ┌───┬───┬───┬───┬───┬───┬───┬───┐  " ++ [10%N]).
  pose proof (fold_guarded (fun i => ((if black then i else 7 - i) < length b)%nat)
                (renderRow b black) (fun i => eq_refl)
                (renderRow_guard b black) (seq 0 8) o) as H.
  rewrite (seq_bound_eight (fun i => if black then i else (7 - i)%nat) (length b)) in H.
  2: { intros i Hi. destruct black; lia. }
  2: { destruct black; [exists 7%nat|exists 0%nat]; split; (lia || reflexivity). }
  destruct (fold_left _ _ _) as [out|].
  - split; [discriminate|]. intros Hl. assert (is_Some (Some out)) as Hs by (eexists; reflexivity).
    apply H in Hs. lia.
  - split; [|reflexivity]. intros _.
    destruct (le_lt_dec 8 (length b)) as [Hl|Hl]; [|exact Hl].
    apply H in Hl. destruct Hl as [x Hx]. discriminate.
Qed.

Lemma renderGame_None_iff s :
  renderGame s = None <-> (length (board (state s)) < 8)%nat.
Proof.
  rewrite <- (renderChessBoard_None_iff (board (state s)) (perspective (state s))).
  unfold renderGame.
  destruct (renderChessBoard (board (state s)) (perspective (state s))) as [txt|].
  - split; [|discriminate]. destruct (moveHistory s); discriminate.
  - split; reflexivity.
Qed.



Lemma attemptLoop_intentos oracle this remaining intentos calls hist :
  snd (attemptLoop oracle this remaining intentos calls hist) <= remaining + intentos.
Proof.
  revert intentos calls hist.
  induction remaining as [|rem IH]; intros intentos calls hist; simpl; [lia|].
  destruct (buildAIPrompt this hist) as [prompt|]; simpl; [|lia].
  destruct (oracle calls prompt) as [response|]; simpl; [|lia].
  destruct (truthy_bool (r_valid (parseAIResponse this response))).
  - destruct (validateAIMove _ this _) as [validationResult called].
    destruct (truthy_bool (r_valid validationResult)); simpl; [lia|].
    etransitivity; [apply IH|lia].
  - etransitivity; [apply IH|lia].
Qed.

(** C10. Outside a game against the service, out of turn, or once the game is
    finished, [generateAIMove] returns null and leaves the session as it
    was. *)
Theorem generateAIMove_guarded oracle t1 t2 this :
  vsAI this = false \/ currentTurn this <> Player2 \/ isFinished this = true ->
  generateAIMove oracle t1 t2 this = (this, None).
Proof.
  intros H. unfold generateAIMove, isAITurn.
  destruct (vsAI this); simpl; [|reflexivity].
  destruct (bool_decide_reflect (currentTurn this = Player2)) as [Ht|Ht]; simpl;
    [|reflexivity].
  destruct (isFinished this); [reflexivity|].
  destruct H as [H|[H|H]]; congruence.
Qed.

Lemma generateAIMove_guarded_witness :
  vsAI ana_vs_bob = false /\
  generateAIMove oracle_e7e5 1%N 2%N ana_vs_bob = (ana_vs_bob, None).
Proof.
  split; [reflexivity|].
  apply (generateAIMove_guarded oracle_e7e5 1%N 2%N ana_vs_bob).
  left. reflexivity.
Defined.

(** C2. The loop of [generateAIMove] makes at most 3 attempts (one generation
    request each), and when it runs (a game against the service, player2 to
    move, not finished) and ends without a validated candidate, the operation
    returns a result that reports failure and the session is the one it
    started from. *)
Theorem generateAIMove_bounded_and_atomic oracle t1 t2 this :
  snd (attemptLoop oracle this MAX_INTENTOS 0 0 []) <= 3 /\
  (vsAI this = true -> currentTurn this = Player2 -> isFinished this = false ->
   (forall r, fst (attemptLoop oracle this MAX_INTENTOS 0 0 []) <> LoopFound r) ->
   exists r, generateAIMove oracle t1 t2 this = (this, Some r) /\ success r = false).
Proof.
  split.
  - pose proof (attemptLoop_intentos oracle this MAX_INTENTOS 0 0 []) as H.
    unfold MAX_INTENTOS in *. lia.
  - intros Hai Hturn Hfin Hnot. unfold generateAIMove, isAITurn.
    rewrite Hai, Hturn, Hfin.
    rewrite bool_decide_eq_true_2 by reflexivity. cbn [negb andb orb].
    destruct (fst (attemptLoop oracle this MAX_INTENTOS 0 0 [])) as [mr| |] eqn:E.
    + exfalso. apply (Hnot mr). reflexivity.
    + eexists. split; reflexivity.
    + eexists. split; reflexivity.
Qed.

Lemma generateAIMove_bounded_and_atomic_witness :
  attemptLoop oracle_mute after_e2e4 MAX_INTENTOS 0 0 [] = (LoopExhausted, 3) /\
  vsAI after_e2e4 = true /\ currentTurn after_e2e4 = Player2 /\
  isFinished after_e2e4 = false /\
  exists r, generateAIMove oracle_mute 3%N 4%N after_e2e4 = (after_e2e4, Some r) /\
            success r = false.
Proof.
  split; [vm_compute; reflexivity|].
  split; [reflexivity|]. split; [reflexivity|]. split; [reflexivity|].
  apply (proj2 (generateAIMove_bounded_and_atomic oracle_mute 3%N 4%N after_e2e4));
    try reflexivity.
  intros r. vm_compute. discriminate.
Defined.

(** *** The generation path re-validates *)

Lemma flag_of_over (m : option (list N)) (a : field bool) : over (flag_of m) a = flag_of m.
Proof. destruct m; reflexivity. Qed.

Lemma js_or_flag_over (m1 m2 : option (list N)) (a : field bool) :
  over (js_or (flag_of m1) (flag_of m2)) a = js_or (flag_of m1) (flag_of m2).
Proof.
  unfold js_or. destruct m1 as [g1|]; simpl.
  - destruct (str_eqb (toLowerCase g1) (js "true")); simpl; [reflexivity|].
    destruct m2; reflexivity.
  - destruct m2; reflexivity.
Qed.

Lemma winner_of_over this (c d : field bool) (a : field Winner) :
  over (winner_of this c d) a = winner_of this c d.
Proof.
  unfold winner_of. destruct (truthy_bool c); [reflexivity|].
  destruct (truthy_bool d); reflexivity.
Qed.

Lemma checkPosition_of_over (m : option (list N)) (a : field (list N)) :
  over (checkPosition_of m) a = checkPosition_of m.
Proof.
  unfold checkPosition_of. destruct m as [g|]; [|reflexivity].
  destruct (str_eqb (toLowerCase g) (js "ninguno")); reflexivity.
Qed.

(** In the merge [{...moveResult, ...validationResult}] every property that
    [applyMove] and the outcome bookkeeping read is the validation's. *)
Lemma spread_validation (g : MoveResult) this response :
  let v := parseMoveResponse this response in
  r_valid (spread g v) = r_valid v /\
  r_normalizedMove (spread g v) = r_normalizedMove v /\
  r_checkPosition (spread g v) = r_checkPosition v /\
  r_gameOver (spread g v) = r_gameOver v /\
  r_winner (spread g v) = r_winner v /\
  r_fenResult (spread g v) = r_fenResult v /\
  r_moveText (spread g v) = r_moveText g.
Proof.
  unfold parseMoveResponse, spread; simpl.
  rewrite flag_of_over, js_or_flag_over, winner_of_over, checkPosition_of_over.
  repeat split; try reflexivity.
  - destruct (re_match "MOVIMIENTO_NORMALIZADO:" grp_move response); reflexivity.
  - destruct (re_match "FEN_RESULTANTE:" grp_line response); reflexivity.
Qed.

(** Which properties of the result [acceptMove] depends on. *)
Lemma acceptMove_ext this playerId moveText (a b : MoveResult) t1 t2 :
  r_valid a = r_valid b ->
  r_normalizedMove a = r_normalizedMove b ->
  r_checkPosition a = r_checkPosition b ->
  r_gameOver a = r_gameOver b ->
  r_winner a = r_winner b ->
  r_fenResult a = r_fenResult b ->
  acceptMove this playerId moveText a t1 t2 = acceptMove this playerId moveText b t1 t2.
Proof.
  intros H1 H2 H3 H4 H5 H6. unfold acceptMove, applyMove.
  rewrite H1, H2, H3, H4, H5, H6. reflexivity.
Qed.

Lemma parseAIResponse_valid_moveText this response :
  truthy_bool (r_valid (parseAIResponse this response)) = true ->
  exists g, re_match "MOVIMIENTO:" grp_move response = Some g /\
            r_moveText (parseAIResponse this response) = Has (toLowerCase g).
Proof.
  unfold parseAIResponse.
  destruct (re_match "MOVIMIENTO:" grp_move response) as [g|]; simpl.
  - intros _. exists g. split; reflexivity.
  - discriminate.
Qed.

(** When the loop ends with a candidate, one attempt generated it and the
    next call of the service validated it. *)
Lemma attemptLoop_found oracle this remaining intentos calls hist r n :
  attemptLoop oracle this remaining intentos calls hist = (LoopFound r, n) ->
  exists k genPrompt genReply moveText valPrompt valReply,
    oracle k genPrompt = Some genReply /\
    r_moveText (parseAIResponse this genReply) = Has moveText /\
    buildMovePrompt this (pid (player2 this)) moveText = Some valPrompt /\
    oracle (S k) valPrompt = Some valReply /\
    truthy_bool (r_valid (parseMoveResponse this valReply)) = true /\
    r = spread (parseAIResponse this genReply) (parseMoveResponse this valReply).
Proof.
  revert intentos calls hist.
  induction remaining as [|rem IH]; intros intentos calls hist; simpl; [discriminate|].
  destruct (buildAIPrompt this hist) as [prompt|]; [|discriminate].
  destruct (oracle calls prompt) as [response|] eqn:Hgen; [|discriminate].
  destruct (truthy_bool (r_valid (parseAIResponse this response))) eqn:Hv.
  - destruct (parseAIResponse_valid_moveText this response Hv) as (g & _ & Hm).
    rewrite Hm. simpl tmpl. unfold validateAIMove.
    destruct (buildMovePrompt this (pid (player2 this)) (toLowerCase g))
      as [valPrompt|] eqn:Hp.
    + destruct (oracle (S calls) valPrompt) as [valReply|] eqn:Hval.
      * destruct (truthy_bool (r_valid (parseMoveResponse this valReply))) eqn:Hvv.
        -- intros H. injection H as <- <-.
           exists calls, prompt, response, (toLowerCase g), valPrompt, valReply.
           rewrite Hm. repeat split; assumption.
        -- apply IH.
      * simpl. apply IH.
    + simpl. apply IH.
  - apply IH.
Qed.

(** C1. Whenever [generateAIMove] changes the session, a generation reply gave
    a move text, the next request to the service was the [buildMovePrompt] of
    that text for player2, its reply parsed by [parseMoveResponse] is valid,
    and the new session is exactly the one [acceptMove] builds from the
    validation result alone, which is also what [processMove] yields for that
    text and that reply. *)
Theorem generateAIMove_applies_validation oracle t1 t2 this s' res :
  generateAIMove oracle t1 t2 this = (s', res) ->
  s' <> this ->
  exists k genPrompt genReply moveText valPrompt valReply,
    oracle k genPrompt = Some genReply /\
    r_moveText (parseAIResponse this genReply) = Has moveText /\
    buildMovePrompt this (pid (player2 this)) moveText = Some valPrompt /\
    oracle (S k) valPrompt = Some valReply /\
    truthy_bool (r_valid (parseMoveResponse this valReply)) = true /\
    s' = acceptMove this (pid (player2 this)) (Has moveText)
                    (parseMoveResponse this valReply) t1 t2 /\
    s' = fst (processMove (oracle (S k)) t1 t2 this (pid (player2 this)) moveText).
Proof.
  unfold generateAIMove. intros H Hne.
  destruct (negb (vsAI this) || negb (isAITurn this) || isFinished this) eqn:Hguard.
  { injection H as <- _. congruence. }
  destruct (attemptLoop oracle this MAX_INTENTOS 0 0 []) as [e n] eqn:Hloop.
  simpl in H. destruct e as [mr| |].
  2,3: injection H as <- _; congruence.
  destruct (attemptLoop_found _ _ _ _ _ _ _ _ Hloop)
    as (k & genPrompt & genReply & moveText & valPrompt & valReply
        & Hgen & Hm & Hp & Hval & Hvv & ->).
  destruct (spread_validation (parseAIResponse this genReply) this valReply)
    as (E1 & E2 & E3 & E4 & E5 & E6 & E7).
  assert (Hs : s' = acceptMove this (pid (player2 this)) (Has moveText)
                      (parseMoveResponse this valReply) t1 t2).
  { rewrite E7, Hm in H.
    rewrite (acceptMove_ext this (pid (player2 this)) (Has moveText) _
               (parseMoveResponse this valReply) t1 t2 E1 E2 E3 E4 E5 E6) in H.
    destruct (renderGame _); injection H as <- _; reflexivity. }
  clear H Hloop.
  exists k, genPrompt, genReply, moveText, valPrompt, valReply.
  repeat split; try assumption.
  unfold processMove.
  apply orb_false_elim in Hguard as [Hguard Hfin].
  apply orb_false_elim in Hguard as [_ Hturn].
  rewrite Hfin. unfold isAITurn in Hturn. unfold isPlayerTurn.
  destruct (bool_decide_reflect (currentTurn this = Player2)) as [Ht|Ht].
  2: { rewrite andb_false_r in Hturn. discriminate. }
  rewrite Ht. unfold str_eqb. rewrite bool_decide_eq_true_2 by reflexivity.
  simpl negb. cbv iota. rewrite Hp, Hval, Hvv.
  destruct (renderGame _); simpl; exact Hs.
Qed.

Lemma generateAIMove_applies_validation_witness :
  exists s' res,
    generateAIMove oracle_e7e5 3%N 4%N after_e2e4 = (s', res) /\
    s' <> after_e2e4 /\
    exists k genPrompt genReply moveText valPrompt valReply,
      oracle_e7e5 k genPrompt = Some genReply /\
      r_moveText (parseAIResponse after_e2e4 genReply) = Has moveText /\
      buildMovePrompt after_e2e4 (pid (player2 after_e2e4)) moveText = Some valPrompt /\
      oracle_e7e5 (S k) valPrompt = Some valReply /\
      truthy_bool (r_valid (parseMoveResponse after_e2e4 valReply)) = true /\
      s' = acceptMove after_e2e4 (pid (player2 after_e2e4)) (Has moveText)
                      (parseMoveResponse after_e2e4 valReply) 3%N 4%N /\
      s' = fst (processMove (oracle_e7e5 (S k)) 3%N 4%N after_e2e4
                            (pid (player2 after_e2e4)) moveText).
Proof.
  destruct (generateAIMove oracle_e7e5 3%N 4%N after_e2e4) as [s' res] eqn:E.
  assert (Hne : s' <> after_e2e4).
  { intros ->. vm_compute in E. discriminate. }
  exists s', res. split; [reflexivity|]. split; [exact Hne|].
  exact (generateAIMove_applies_validation oracle_e7e5 3%N 4%N after_e2e4 s' res E Hne).
Defined.

(** *** Outcome bookkeeping *)

Lemma parse_gameOver_winner this response :
  truthy_bool (r_gameOver (parseMoveResponse this response)) = true ->
  r_winner (parseMoveResponse this response) <> Null.
Proof.
  unfold parseMoveResponse; simpl. unfold js_or, winner_of.
  destruct (truthy_bool (flag_of (re_match "JAQUE_MATE:" grp_truefalse response)));
    [discriminate|].
  intros ->. discriminate.
Qed.

Lemma processMove_state ask t1 t2 this playerId moveText :
  fst (processMove ask t1 t2 this playerId moveText) = this \/
  exists response,
    fst (processMove ask t1 t2 this playerId moveText)
    = acceptMove this playerId (Has moveText) (parseMoveResponse this response) t1 t2.
Proof.
  unfold processMove.
  destruct (isFinished this); [left; reflexivity|].
  destruct (negb (isPlayerTurn this playerId)); [left; reflexivity|].
  destruct (buildMovePrompt this playerId moveText) as [prompt|]; [|left; reflexivity].
  destruct (ask prompt) as [response|]; [|left; reflexivity].
  destruct (truthy_bool (r_valid (parseMoveResponse this response)));
    [|left; reflexivity].
  right. exists response. destruct (renderGame _); reflexivity.
Qed.

Lemma generateAIMove_state oracle t1 t2 this :
  fst (generateAIMove oracle t1 t2 this) = this \/
  exists moveText response,
    fst (generateAIMove oracle t1 t2 this)
    = acceptMove this (pid (player2 this)) (Has moveText)
                 (parseMoveResponse this response) t1 t2.
Proof.
  unfold generateAIMove.
  destruct (negb (vsAI this) || negb (isAITurn this) || isFinished this);
    [left; reflexivity|].
  destruct (attemptLoop oracle this MAX_INTENTOS 0 0 []) as [e n] eqn:Hloop.
  simpl. destruct e as [mr| |]; [|left; reflexivity|left; reflexivity].
  destruct (attemptLoop_found _ _ _ _ _ _ _ _ Hloop)
    as (k & genPrompt & genReply & moveText & valPrompt & valReply
        & _ & Hm & _ & _ & _ & ->).
  destruct (spread_validation (parseAIResponse this genReply) this valReply)
    as (E1 & E2 & E3 & E4 & E5 & E6 & E7).
  rewrite E7, Hm.
  rewrite (acceptMove_ext this (pid (player2 this)) (Has moveText) _
             (parseMoveResponse this valReply) t1 t2 E1 E2 E3 E4 E5 E6).
  right. exists moveText, valReply.
  destruct (renderGame _); reflexivity.
Qed.

(** What [acceptMove] does to the bookkeeping fields of the session. *)
Lemma acceptMove_fields this playerId moveText (mr : MoveResult) t1 t2 :
  let s' := acceptMove this playerId moveText mr t1 t2 in
  moveHistory s' = moveHistory this
                   ++ [mkMove playerId moveText (r_normalizedMove mr) t1] /\
  (truthy_bool (r_gameOver mr) = true ->
   winner s' = r_winner mr /\ endTime s' = Some t2 /\ currentTurn s' = currentTurn this) /\
  (truthy_bool (r_gameOver mr) = false ->
   winner s' = winner this /\ endTime s' = endTime this /\
   currentTurn s' = otherSide (currentTurn this)).
Proof.
  unfold acceptMove, applyMove.
  destruct (truthy_bool (r_gameOver mr)), (truthy_bool (r_valid mr)); simpl;
    repeat split; intros; try discriminate; reflexivity.
Qed.

Lemma acceptMove_outcome this playerId moveText response t1 t2 :
  (winner this <> Null <-> endTime this <> None) ->
  let s' := acceptMove this playerId moveText (parseMoveResponse this response) t1 t2 in
  winner s' <> Null <-> endTime s' <> None.
Proof.
  intros Hinv s'.
  pose proof (parse_gameOver_winner this response) as Hw.
  destruct (acceptMove_fields this playerId moveText
              (parseMoveResponse this response) t1 t2) as (_ & Hover & Hgo).
  fold s' in Hover, Hgo.
  destruct (truthy_bool (r_gameOver (parseMoveResponse this response))).
  - destruct (Hover eq_refl) as (-> & -> & _).
    split; [intros _; discriminate|intros _; exact (Hw eq_refl)].
  - destruct (Hgo eq_refl) as (-> & -> & _). exact Hinv.
Qed.

(** C4. In every session the program can hold, after every operation, there is
    a winner exactly when there is an end time. *)
Theorem winner_iff_endTime s :
  reachable s -> (winner s <> Null <-> endTime s <> None).
Proof.
  induction 1 as [p1 n1 p2 n2 ai now
                 | s ask t1 t2 playerId moveText Hr IH
                 | s oracle t1 t2 Hr IH
                 | s t1 t2 playerId Hr IH].
  - simpl. split; intros H; congruence.
  - destruct (processMove_state ask t1 t2 s playerId moveText) as [->|[response ->]];
      [exact IH|].
    apply acceptMove_outcome; exact IH.
  - destruct (generateAIMove_state oracle t1 t2 s) as [->|(moveText & response & ->)];
      [exact IH|].
    apply acceptMove_outcome; exact IH.
  - unfold surrender.
    destruct (isFinished s); [exact IH|].
    destruct (negb (str_eqb playerId (pid (player1 s)))
              && negb (str_eqb playerId (pid (player2 s)))); [exact IH|].
    destruct (renderGame _); simpl; split; intros _; congruence.
Qed.

Lemma winner_iff_endTime_witness :
  reachable (fst (surrender 5%N 6%N after_e2e4 (js "1001"))) /\
  (winner (fst (surrender 5%N 6%N after_e2e4 (js "1001"))) <> Null <->
   endTime (fst (surrender 5%N 6%N after_e2e4 (js "1001"))) <> None).
Proof.
  assert (Hr : reachable (fst (surrender 5%N 6%N after_e2e4 (js "1001")))).
  { apply reach_surrender. unfold after_e2e4. apply reach_processMove.
    unfold ana_vs_ai. apply reach_initialize. }
  split; [exact Hr|].
  apply (winner_iff_endTime _ Hr).
Defined.

(** *** Human moves *)

(** C6. A move by the player in turn whose reply parses as valid and not
    terminal appends exactly one entry, carrying the normalized move of the
    reply, and passes the turn to the other player. *)
Theorem processMove_valid_nonterminal ask t1 t2 this playerId moveText prompt reply :
  isFinished this = false ->
  isPlayerTurn this playerId = true ->
  buildMovePrompt this playerId moveText = Some prompt ->
  ask prompt = Some reply ->
  truthy_bool (r_valid (parseMoveResponse this reply)) = true ->
  truthy_bool (r_gameOver (parseMoveResponse this reply)) = false ->
  let s' := fst (processMove ask t1 t2 this playerId moveText) in
  moveHistory s' = moveHistory this
                   ++ [mkMove playerId (Has moveText)
                              (r_normalizedMove (parseMoveResponse this reply)) t1] /\
  currentTurn s' = otherSide (currentTurn this) /\
  isFinished s' = false.
Proof.
  intros Hfin Hturn Hp Hask Hv Hg. cbv zeta.
  assert (Hs : fst (processMove ask t1 t2 this playerId moveText)
               = acceptMove this playerId (Has moveText)
                            (parseMoveResponse this reply) t1 t2).
  { unfold processMove.
    rewrite Hfin, Hturn. simpl negb. cbv iota. rewrite Hp, Hask, Hv.
    destruct (renderGame _); reflexivity. }
  rewrite Hs.
  destruct (acceptMove_fields this playerId (Has moveText)
              (parseMoveResponse this reply) t1 t2) as (Hh & _ & Hgo).
  destruct (Hgo Hg) as (Hw & _ & Ht).
  repeat split; [exact Hh|exact Ht|].
  unfold isFinished in *. rewrite Hw. exact Hfin.
Qed.

Lemma processMove_valid_nonterminal_witness :
  let s' := fst (processMove (fun _ => Some reply_e2e4) 1%N 2%N ana_vs_ai
                             (js "1001") (js "e2e4")) in
  moveHistory s' = [mkMove (js "1001") (Has (js "e2e4")) (Has (js "e2e4")) 1%N] /\
  currentTurn s' = Player2 /\
  isFinished s' = false.
Proof.
  destruct (buildMovePrompt ana_vs_ai (js "1001") (js "e2e4")) as [prompt|] eqn:Hp;
    [|vm_compute in Hp; discriminate].
  exact (processMove_valid_nonterminal (fun _ => Some reply_e2e4) 1%N 2%N ana_vs_ai
           (js "1001") (js "e2e4") prompt reply_e2e4
           eq_refl eq_refl Hp eq_refl eq_refl eq_refl).
Defined.

(** What [acceptMove] does to the chess state when the result is valid and
    carries no resulting position. *)
Lemma acceptMove_without_fen this playerId moveText (mr : MoveResult) t1 t2 :
  truthy_bool (r_valid mr) = true ->
  r_fenResult mr = Null ->
  let s' := acceptMove this playerId moveText mr t1 t2 in
  board (state s') = board (state this) /\
  castlingRights (state s') = castlingRights (state this) /\
  enPassantTarget (state s') = enPassantTarget (state this) /\
  halfMoveClock (state s') = halfMoveClock (state this) /\
  lastMove (state s') = r_normalizedMove mr /\
  check (state s') = r_checkPosition mr.
Proof.
  intros Hv Hfen. unfold acceptMove, applyMove. rewrite Hv, Hfen.
  destruct (truthy_bool (r_gameOver mr)); simpl; repeat split; reflexivity.
Qed.

(** C3, as the code has it. A reply that asserts validity and has no
    resulting position is accepted like any valid reply: the result is a
    success, the move is appended and recorded as the last move, the turn
    passes to the other player or, on a terminal reply, winner and end time
    are set; the board, castling rights, en-passant square and half-move
    clock stay as they were. *)
Theorem processMove_valid_without_fen ask t1 t2 this playerId moveText prompt reply :
  isFinished this = false ->
  isPlayerTurn this playerId = true ->
  buildMovePrompt this playerId moveText = Some prompt ->
  ask prompt = Some reply ->
  truthy_bool (r_valid (parseMoveResponse this reply)) = true ->
  r_fenResult (parseMoveResponse this reply) = Null ->
  let s' := fst (processMove ask t1 t2 this playerId moveText) in
  let res := snd (processMove ask t1 t2 this playerId moveText) in
  success res = true /\
  gameOver res = r_gameOver (parseMoveResponse this reply) /\
  moveHistory s' = moveHistory this
                   ++ [mkMove playerId (Has moveText)
                              (r_normalizedMove (parseMoveResponse this reply)) t1] /\
  (truthy_bool (r_gameOver (parseMoveResponse this reply)) = false ->
   currentTurn s' = otherSide (currentTurn this) /\
   winner s' = winner this /\ endTime s' = endTime this) /\
  (truthy_bool (r_gameOver (parseMoveResponse this reply)) = true ->
   currentTurn s' = currentTurn this /\
   winner s' = r_winner (parseMoveResponse this reply) /\ endTime s' = Some t2) /\
  board (state s') = board (state this) /\
  castlingRights (state s') = castlingRights (state this) /\
  enPassantTarget (state s') = enPassantTarget (state this) /\
  halfMoveClock (state s') = halfMoveClock (state this) /\
  lastMove (state s') = r_normalizedMove (parseMoveResponse this reply) /\
  check (state s') = r_checkPosition (parseMoveResponse this reply).
Proof.
  intros Hfin Hturn Hp Hask Hv Hfen. cbv zeta.
  destruct (acceptMove_fields this playerId (Has moveText)
              (parseMoveResponse this reply) t1 t2) as (Hh & Hover & Hgo).
  destruct (acceptMove_without_fen this playerId (Has moveText)
              (parseMoveResponse this reply) t1 t2 Hv Hfen)
    as (Hb & Hc & He & Hhm & Hl & Hck).
  assert (H8 : ~ (length (board (state this)) < 8)%nat).
  { intros H. apply generateFEN_None_iff in H. unfold buildMovePrompt in Hp.
    rewrite H in Hp. discriminate. }
  assert (Hr : exists text,
             renderGame (acceptMove this playerId (Has moveText)
                           (parseMoveResponse this reply) t1 t2) = Some text).
  { destruct (renderGame _) as [text|] eqn:E; [exists text; reflexivity|].
    apply renderGame_None_iff in E. rewrite Hb in E. contradiction. }
  destruct Hr as [text Hr].
  assert (Hs : processMove ask t1 t2 this playerId moveText
               = (acceptMove this playerId (Has moveText)
                             (parseMoveResponse this reply) t1 t2,
                  mkResult true text (r_gameOver (parseMoveResponse this reply)))).
  { unfold processMove.
    rewrite Hfin, Hturn. simpl negb. cbv iota. rewrite Hp, Hask, Hv, Hr. reflexivity. }
  rewrite Hs. cbn [fst snd success gameOver].
  split; [reflexivity|]. split; [reflexivity|]. split; [exact Hh|].
  split; [intros Hg; destruct (Hgo Hg) as (Hw & Het & Ht); repeat split; assumption|].
  split; [intros Hg; destruct (Hover Hg) as (Hw & Het & Ht); repeat split; assumption|].
  repeat split; assumption.
Qed.

Lemma processMove_valid_without_fen_witness :
  let s' := fst (processMove (fun _ => Some reply_e2e4_no_fen) 1%N 2%N ana_vs_ai
                             (js "1001") (js "e2e4")) in
  let res := snd (processMove (fun _ => Some reply_e2e4_no_fen) 1%N 2%N ana_vs_ai
                              (js "1001") (js "e2e4")) in
  success res = true /\
  gameOver res = Null /\
  moveHistory s' = [mkMove (js "1001") (Has (js "e2e4")) (Has (js "e2e4")) 1%N] /\
  (truthy_bool (@Null bool) = false ->
   currentTurn s' = Player2 /\ winner s' = Null /\ endTime s' = None) /\
  (truthy_bool (@Null bool) = true ->
   currentTurn s' = Player1 /\ winner s' = Null /\ endTime s' = Some 2%N) /\
  board (state s') = initialBoard /\
  castlingRights (state s') = mkCastling true true true true /\
  enPassantTarget (state s') = Null /\
  halfMoveClock (state s') = Int 0 /\
  lastMove (state s') = Has (js "e2e4") /\
  check (state s') = Null.
Proof.
  destruct (buildMovePrompt ana_vs_ai (js "1001") (js "e2e4")) as [prompt|] eqn:Hp;
    [|vm_compute in Hp; discriminate].
  exact (processMove_valid_without_fen (fun _ => Some reply_e2e4_no_fen) 1%N 2%N
           ana_vs_ai (js "1001") (js "e2e4") prompt reply_e2e4_no_fen
           eq_refl eq_refl Hp eq_refl eq_refl eq_refl).
Defined.

(** C3, as stated, fails: this reply asserts validity, has no FEN_RESULTANTE
    field, and the move is applied and reported as a success. *)
Lemma missing_fen_is_not_rejected :
  occurs_ci (js "FEN_RESULTANTE:") reply_e2e4_no_fen = false /\
  r_valid (parseMoveResponse ana_vs_ai reply_e2e4_no_fen) = Has true /\
  success (snd (processMove (fun _ => Some reply_e2e4_no_fen) 1%N 2%N ana_vs_ai
                            (js "1001") (js "e2e4"))) = true /\
  length (moveHistory
            (fst (processMove (fun _ => Some reply_e2e4_no_fen) 1%N 2%N ana_vs_ai
                              (js "1001") (js "e2e4")))) = 1 /\
  currentTurn (fst (processMove (fun _ => Some reply_e2e4_no_fen) 1%N 2%N ana_vs_ai
                                (js "1001") (js "e2e4"))) = Player2.
Proof. vm_compute. repeat split. Qed.

(** *** Surrender *)

(** C8, as the code has it. On an unfinished session a surrender by one of the
    two players appends one "surrender" move, makes the other side the winner
    (player2 when the id is player1's, player1 otherwise), sets the end time
    and finishes the session; a surrender by anyone else is refused and
    changes nothing; on a finished session nothing changes and the result
    says that the game has ended. *)
Theorem surrender_by_participant t1 t2 this playerId :
  (isFinished this = false ->
   playerId = pid (player1 this) \/ playerId = pid (player2 this) ->
   let s' := fst (surrender t1 t2 this playerId) in
   moveHistory s' = moveHistory this
                    ++ [mkMove playerId (Has (js "surrender")) Absent t1] /\
   winner s' = Has (Won (if str_eqb playerId (pid (player1 this))
                         then Player2 else Player1)) /\
   endTime s' = Some t2 /\
   isFinished s' = true /\
   state s' = state this /\ currentTurn s' = currentTurn this) /\
  (isFinished this = false ->
   playerId <> pid (player1 this) -> playerId <> pid (player2 this) ->
   surrender t1 t2 this playerId
   = (this, Some (mkResult false (js "No estás participando en este juego.")
                           (Has false)))) /\
  (isFinished this = true ->
   surrender t1 t2 this playerId
   = (this, Some (mkResult false
                    (js "El juego ya ha terminado. " ++ getEndGameMessage this)
                    (Has true)))).
Proof.
  split; [|split].
  - intros Hfin Hpart. unfold surrender. rewrite Hfin.
    assert (Hg : negb (str_eqb playerId (pid (player1 this)))
                 && negb (str_eqb playerId (pid (player2 this))) = false).
    { unfold str_eqb. destruct Hpart as [->| ->].
      - rewrite bool_decide_eq_true_2 by reflexivity. reflexivity.
      - rewrite (bool_decide_eq_true_2 (pid (player2 this) = pid (player2 this)))
          by reflexivity.
        apply andb_false_r. }
    rewrite Hg. destruct (renderGame _); simpl; repeat split; reflexivity.
  - intros Hfin H1 H2. unfold surrender, str_eqb. rewrite Hfin.
    rewrite !bool_decide_eq_false_2 by assumption. reflexivity.
  - intros Hfin. unfold surrender. rewrite Hfin. reflexivity.
Qed.

Lemma surrender_by_participant_witness :
  (let s' := fst (surrender 5%N 6%N after_e2e4 (js "1001")) in
   moveHistory s' = moveHistory after_e2e4
                    ++ [mkMove (js "1001") (Has (js "surrender")) Absent 5%N] /\
   winner s' = Has (Won Player2) /\
   endTime s' = Some 6%N /\
   isFinished s' = true /\
   state s' = state after_e2e4 /\ currentTurn s' = currentTurn after_e2e4) /\
  surrender 5%N 6%N after_e2e4 (js "1004")
  = (after_e2e4, Some (mkResult false (js "No estás participando en este juego.")
                                (Has false))) /\
  surrender 7%N 8%N (fst (surrender 5%N 6%N after_e2e4 (js "1001"))) (js "AI")
  = (fst (surrender 5%N 6%N after_e2e4 (js "1001")),
     Some (mkResult false
             (js "El juego ya ha terminado. "
              ++ getEndGameMessage (fst (surrender 5%N 6%N after_e2e4 (js "1001"))))
             (Has true))).
Proof.
  split; [|split].
  - apply (proj1 (surrender_by_participant 5%N 6%N after_e2e4 (js "1001")));
      [reflexivity|left; reflexivity].
  - apply (proj1 (proj2 (surrender_by_participant 5%N 6%N after_e2e4 (js "1004"))));
      [reflexivity|vm_compute; discriminate|vm_compute; discriminate].
  - apply (proj2 (proj2 (surrender_by_participant 7%N 8%N
                    (fst (surrender 5%N 6%N after_e2e4 (js "1001"))) (js "AI")))).
    reflexivity.
Defined.

(** C8, as stated, fails: a surrender by someone who plays in neither seat
    leaves an unfinished session untouched. *)
Lemma surrender_by_outsider_changes_nothing :
  isFinished ana_vs_bob = false /\
  surrender 5%N 6%N ana_vs_bob (js "1003")
  = (ana_vs_bob,
     Some (mkResult false (js "No estás participando en este juego.") (Has false))).
Proof. vm_compute. split; reflexivity. Qed.

(** *** Starting a game *)

(** C7. [startGame] answers 'already_active' exactly when the registry holds
    an unfinished session for the channel; otherwise, for a registered game
    type, it succeeds and the channel holds a new session with no move, no
    winner and player1 to move. *)
Theorem startGame_conflict_iff fsOk now this channelId userId username gameType opponent :
  ((exists g, snd (startGame fsOk now this channelId userId username gameType opponent)
              = AlreadyActive g)
   <-> exists g, activeSessions this !! channelId = Some g /\ isFinished g = false) /\
  ((forall g, activeSessions this !! channelId = Some g -> isFinished g = true) ->
   GAME_TYPES (toLowerCase gameType) = IsChessGame ->
   exists game,
     snd (startGame fsOk now this channelId userId username gameType opponent)
     = Started game /\
     activeSessions (fst (startGame fsOk now this channelId userId username
                                    gameType opponent)) !! channelId = Some game /\
     moveHistory game = [] /\ winner game = Null /\ endTime game = None /\
     currentTurn game = Player1 /\ pid (player1 game) = userId /\
     vsAI game = bool_decide (opponent = None)).
Proof.
  unfold startGame, unfinishedSession. split.
  - destruct (activeSessions this !! channelId) as [g|] eqn:Hl.
    + destruct (isFinished g) eqn:Hf.
      * split.
        -- intros [g' H]. destruct (GAME_TYPES (toLowerCase gameType)); discriminate.
        -- intros (g' & Hg' & Hnf). congruence.
      * split; [intros _; exists g; split; [reflexivity|exact Hf]|].
        intros _. exists g. reflexivity.
    + split.
      * intros [g' H]. destruct (GAME_TYPES (toLowerCase gameType)); discriminate.
      * intros (g' & Hg' & _). discriminate.
  - intros Hfin Hty.
    assert (Hn : match activeSessions this !! channelId with
                 | Some currentGame =>
                     if isFinished currentGame then None else Some currentGame
                 | None => None
                 end = None).
    { destruct (activeSessions this !! channelId) as [g|]; [|reflexivity].
      rewrite (Hfin g eq_refl). reflexivity. }
    rewrite Hn, Hty. eexists. split; [reflexivity|].
    split; [|repeat split; reflexivity].
    unfold saveGameState. destruct fsOk; simpl; apply lookup_insert_eq.
Qed.

Lemma startGame_conflict_iff_witness :
  (* an unfinished game in the channel: refused *)
  (exists g, snd (startGame true 9%N registry_unfinished (js "chan") (js "1003")
                            (js "Eva") (js "chess") None) = AlreadyActive g) /\
  (* a finished game in the channel: a new session replaces it *)
  (activeSessions registry_finished !! js "chan" = Some finished_game /\
   isFinished finished_game = true /\
   exists game,
     snd (startGame true 9%N registry_finished (js "chan") (js "1003") (js "Eva")
                    (js "Chess") None) = Started game /\
     activeSessions (fst (startGame true 9%N registry_finished (js "chan") (js "1003")
                                    (js "Eva") (js "Chess") None)) !! js "chan"
     = Some game /\
     moveHistory game = [] /\ winner game = Null /\ endTime game = None /\
     currentTurn game = Player1 /\ pid (player1 game) = js "1003" /\
     vsAI game = bool_decide (@None Player = None)) /\
  (* no game in the channel *)
  (activeSessions emptyManager !! js "chan" = None /\
   exists game,
     snd (startGame true 0%N emptyManager (js "chan") (js "1001") (js "Ana")
                    (js "Chess") None) = Started game /\
     activeSessions (fst (startGame true 0%N emptyManager (js "chan") (js "1001")
                                    (js "Ana") (js "Chess") None)) !! js "chan"
     = Some game /\
     moveHistory game = [] /\ winner game = Null /\ endTime game = None /\
     currentTurn game = Player1 /\ pid (player1 game) = js "1001" /\
     vsAI game = bool_decide (@None Player = None)).
Proof.
  assert (Hu : activeSessions registry_unfinished !! js "chan" = Some after_e2e4)
    by apply lookup_insert_eq.
  assert (Hf : activeSessions registry_finished !! js "chan" = Some finished_game)
    by apply lookup_insert_eq.
  assert (He : activeSessions emptyManager !! js "chan" = None)
    by apply lookup_empty.
  split; [|split].
  - apply (proj1 (startGame_conflict_iff true 9%N registry_unfinished (js "chan")
                    (js "1003") (js "Eva") (js "chess") None)).
    exists after_e2e4. split; [exact Hu|reflexivity].
  - split; [exact Hf|]. split; [vm_compute; reflexivity|].
    apply (proj2 (startGame_conflict_iff true 9%N registry_finished (js "chan")
                    (js "1003") (js "Eva") (js "Chess") None)); [|reflexivity].
    intros g Hg. rewrite Hf in Hg. apply (inj Some) in Hg. subst g.
    vm_compute. reflexivity.
  - split; [exact He|].
    apply (proj2 (startGame_conflict_iff true 0%N emptyManager (js "chan") (js "1001")
                    (js "Ana") (js "Chess") None)); [|reflexivity].
    intros g Hg. rewrite He in Hg. discriminate.
Defined.

(** *** The reply parsers default to invalid *)

Lemma lit_ci_prefix {R : Type} (lit : list N) (k : list N -> option R) (s : list N) r :
  lit_ci lit k s = Some r -> prefix_ci lit s = true.
Proof.
  unfold prefix_ci. revert s.
  induction lit as [|p lit IH]; intros s; simpl; [reflexivity|].
  destruct s as [|c t]; [discriminate|].
  destruct (eq_ci c p); [apply IH|discriminate].
Qed.

Lemma search_without_label {R : Type} (lit : list N) (k : list N -> option R) (s : list N) :
  occurs_ci lit s = false -> search (lit_ci lit k) s = None.
Proof.
  induction s as [|c t IH]; simpl; intros H; apply orb_false_elim in H as [Hp Ht].
  - destruct (lit_ci lit k []) as [r|] eqn:E; [|reflexivity].
    apply lit_ci_prefix in E. congruence.
  - destruct (lit_ci lit k (c :: t)) as [r|] eqn:E.
    + apply lit_ci_prefix in E. congruence.
    + apply IH. exact Ht.
Qed.

(** C9. Both parsers return a result for every text, and a text without the
    validity field (for the generation parser: without a move token) gives a
    result that is not valid. *)
Theorem parsers_default_invalid this response :
  (occurs_ci (js "MOVIMIENTO_VALIDO:") response = false ->
   r_valid (parseMoveResponse this response) = Null) /\
  (re_match "MOVIMIENTO:" grp_move response = None ->
   parseAIResponse this response
   = invalidResult (js "La IA no generó un movimiento válido")) /\
  (occurs_ci (js "MOVIMIENTO:") response = false ->
   truthy_bool (r_valid (parseAIResponse this response)) = false).
Proof.
  repeat split.
  - intros H. unfold parseMoveResponse; simpl. unfold re_match.
    rewrite (search_without_label _ _ _ H). reflexivity.
  - intros H. unfold parseAIResponse. rewrite H. reflexivity.
  - intros H. unfold parseAIResponse, re_match.
    rewrite (search_without_label _ _ _ H). reflexivity.
Qed.

Lemma parsers_default_invalid_witness :
  r_valid (parseMoveResponse ana_vs_ai (js "No sé.")) = Null /\
  parseAIResponse ana_vs_ai (js "MOVIMIENTO: enroque")
  = invalidResult (js "La IA no generó un movimiento válido") /\
  truthy_bool (r_valid (parseAIResponse ana_vs_ai (js "No sé."))) = false.
Proof.
  pose proof (parsers_default_invalid ana_vs_ai (js "No sé.")) as (H1 & _ & H3).
  pose proof (parsers_default_invalid ana_vs_ai (js "MOVIMIENTO: enroque")) as (_ & H2 & _).
  split; [apply H1; reflexivity|].
  split; [apply H2; reflexivity|apply H3; reflexivity].
Defined.

(** ** The FEN text round trip *)

(** *** Numbers *)

Lemma isDigit_mod n : isDigit (48 + n mod 10)%N = true.
Proof.
  unfold isDigit. pose proof (N.mod_upper_bound n 10 ltac:(lia)) as H.
  remember (n mod 10)%N as m. apply andb_true_intro. split; apply N.leb_le; lia.
Qed.

Lemma digits_fuel_spec fuel n acc :
  (n < 10 ^ N.of_nat (S fuel))%N ->
  exists ds, digits_fuel (S fuel) n acc = ds ++ acc /\ ds <> [] /\
             Forall (fun d => isDigit d = true) ds /\
             forall a, fold_left (fun a d => (a * 10 + (d - 48))%N) ds a
                       = (a * 10 ^ N.of_nat (length ds) + n)%N.
Proof.
  revert n acc. induction fuel as [|f IH]; intros n acc Hn.
  - change (10 ^ N.of_nat 1)%N with 10%N in Hn.
    simpl. apply N.ltb_lt in Hn as Hb. rewrite Hb.
    exists [(48 + n mod 10)%N]. repeat split.
    + discriminate.
    + constructor; [apply isDigit_mod|constructor].
    + intros a. cbn [fold_left length]. rewrite N.mod_small by lia.
      change (N.of_nat 1) with 1%N. rewrite N.pow_1_r. lia.
  - change (digits_fuel (S (S f)) n acc) with
      (let acc' := (48 + n mod 10)%N :: acc in
       if (n <? 10)%N then acc' else digits_fuel (S f) (n / 10)%N acc').
    cbv zeta. destruct (n <? 10)%N eqn:Hb.
    + apply N.ltb_lt in Hb.
      exists [(48 + n mod 10)%N]. repeat split.
      * discriminate.
      * constructor; [apply isDigit_mod|constructor].
      * intros a. cbn [fold_left length]. rewrite N.mod_small by lia.
        change (N.of_nat 1) with 1%N. rewrite N.pow_1_r. lia.
    + apply N.ltb_ge in Hb.
      assert (Hd : (n / 10 < 10 ^ N.of_nat (S f))%N).
      { apply N.Div0.div_lt_upper_bound.
        replace (N.of_nat (S (S f))) with (N.succ (N.of_nat (S f))) in Hn by lia.
        rewrite N.pow_succ_r' in Hn. exact Hn. }
      destruct (IH (n / 10)%N ((48 + n mod 10)%N :: acc) Hd) as (ds & E & Hne & Hdig & Hval).
      exists (ds ++ [(48 + n mod 10)%N]). repeat split.
      * rewrite E, <- app_assoc. reflexivity.
      * destruct ds; discriminate.
      * apply Forall_app. split; [exact Hdig|].
        constructor; [apply isDigit_mod|constructor].
      * intros a. rewrite fold_left_app, Hval. cbn [fold_left].
        rewrite length_app. cbn [length].
        replace (N.of_nat (length ds + 1)) with (N.succ (N.of_nat (length ds))) by lia.
        rewrite N.pow_succ_r'.
        pose proof (N.div_mod n 10 ltac:(lia)) as Hdm.
        remember (n mod 10)%N as m. remember (n / 10)%N as q.
        remember (10 ^ N.of_nat (length ds))%N as P. nia.
Qed.

Lemma N_to_js_spec n :
  exists ds, N_to_js n = ds /\ ds <> [] /\ Forall (fun d => isDigit d = true) ds /\
             digits_value ds = n.
Proof.
  unfold N_to_js.
  destruct (digits_fuel_spec (N.to_nat (N.log2 n)) n []) as (ds & E & Hne & Hd & Hv).
  - destruct (N.eq_dec n 0%N) as [->|Hn]; [reflexivity|].
    pose proof (N.log2_spec n ltac:(lia)) as [_ Hu].
    eapply N.lt_le_trans; [exact Hu|].
    replace (N.of_nat (S (N.to_nat (N.log2 n)))) with (N.succ (N.log2 n)) by lia.
    apply N.pow_le_mono_l. lia.
  - exists ds. rewrite app_nil_r in E. repeat split; try assumption.
    unfold digits_value. rewrite Hv. lia.
Qed.

Lemma take_while_all (p : N -> bool) ds : Forall (fun d => p d = true) ds -> take_while p ds = ds.
Proof. induction 1 as [|d ds Hd _ IH]; simpl; [reflexivity|]. rewrite Hd, IH. reflexivity. Qed.

Lemma digit_facts d : isDigit d = true ->
  isSpace d = false /\ (d =? 45)%N = false /\ (d =? 43)%N = false /\ (d =? 32)%N = false.
Proof.
  unfold isDigit, isSpace. intros H. apply andb_prop in H as [H1 H2].
  apply N.leb_le in H1, H2.
  repeat match goal with
  | |- context [(?a =? ?b)%N] => let E := fresh in destruct (N.eqb_spec a b) as [E|E]; [lia|]
  | |- context [(?a <=? ?b)%N] => let E := fresh in destruct (N.leb_spec a b) as [E|E]; try lia
  end; simpl; repeat split; reflexivity.
Qed.

Lemma parseInt10_digits ds :
  ds <> [] -> Forall (fun d => isDigit d = true) ds ->
  parseInt10 ds = Int (Z.of_N (digits_value ds)).
Proof.
  intros Hne Hd. destruct ds as [|d ds']; [congruence|].
  pose proof (Forall_inv Hd) as Hd0.
  destruct (digit_facts d Hd0) as (Hs & Hm & Hp & _).
  unfold parseInt10. simpl drop_while. rewrite Hs, Hm, Hp.
  rewrite (take_while_all isDigit (d :: ds') Hd). reflexivity.
Qed.

Lemma parseInt10_numToString x : parseInt10 (numToString x) = x.
Proof.
  destruct x as [|z]; [reflexivity|]. unfold numToString.
  destruct (Z.ltb_spec z 0) as [Hz|Hz].
  - destruct (N_to_js_spec (Z.to_N (- z))) as (ds & E & Hne & Hd & Hv). rewrite E.
    unfold parseInt10. simpl.
    rewrite (take_while_all isDigit ds Hd).
    destruct ds as [|d ds']; [congruence|]. rewrite Hv. f_equal. lia.
  - destruct (N_to_js_spec (Z.to_N z)) as (ds & E & Hne & Hd & Hv). rewrite E.
    rewrite (parseInt10_digits ds Hne Hd), Hv. f_equal. lia.
Qed.

Lemma includes_app c a b : includes c (a ++ b) = includes c a || includes c b.
Proof. unfold includes. apply existsb_app. Qed.

Lemma includes_cons c x l : includes c (x :: l) = (c =? x)%N || includes c l.
Proof. reflexivity. Qed.

Lemma numToString_no_space x : includes 32%N (numToString x) = false.
Proof.
  assert (Hds : forall ds, Forall (fun d => isDigit d = true) ds -> includes 32%N ds = false).
  { induction 1 as [|d ds Hd _ IH]; [reflexivity|].
    unfold includes in *. cbn [existsb].
    destruct (digit_facts d Hd) as (_ & _ & _ & H32).
    rewrite N.eqb_sym, H32. exact IH. }
  destruct x as [|z]; [reflexivity|]. unfold numToString.
  destruct (z <? 0)%Z.
  - destruct (N_to_js_spec (Z.to_N (- z))) as (ds & E & _ & Hd & _). rewrite E.
    change (includes 32%N (45%N :: ds)) with (false || includes 32%N ds).
    apply Hds. exact Hd.
  - destruct (N_to_js_spec (Z.to_N z)) as (ds & E & _ & Hd & _). rewrite E.
    apply Hds. exact Hd.
Qed.

Lemma split_on_none sep a : includes sep a = false -> split_on sep a = [a].
Proof.
  induction a as [|c t IH]; [reflexivity|]. intros H.
  unfold includes in *. cbn [existsb] in H. cbn [split_on].
  apply orb_false_elim in H as [Hc Ht]. rewrite N.eqb_sym, Hc, (IH Ht). reflexivity.
Qed.

Lemma split_on_app sep a b :
  includes sep a = false -> split_on sep (a ++ sep :: b) = a :: split_on sep b.
Proof.
  induction a as [|c t IH].
  - intros _. cbn [app split_on]. rewrite N.eqb_refl. reflexivity.
  - intros H. unfold includes in *. cbn [existsb] in H. cbn [app split_on].
    apply orb_false_elim in H as [Hc Ht].
    rewrite N.eqb_sym, Hc, (IH Ht). reflexivity.
Qed.

Lemma decode_rank_app a b : decode_rank (a ++ b) = decode_rank a ++ decode_rank b.
Proof. unfold decode_rank. apply flat_map_app. Qed.

Lemma replicate_snoc {A : Type} n (x : A) (l : list A) :
  replicate (S n) x ++ l = replicate n x ++ x :: l.
Proof. induction n as [|n IH]; [reflexivity|]. simpl in *. rewrite IH. reflexivity. Qed.

Lemma small_cases (e : N) : (e <= 8)%N ->
  e = 0%N \/ e = 1%N \/ e = 2%N \/ e = 3%N \/ e = 4%N \/ e = 5%N \/ e = 6%N \/ e = 7%N
  \/ e = 8%N.
Proof. lia. Qed.

Lemma flush_spec fen e : (e <= 8)%N ->
  decode_rank (flush (fen, e)) = decode_rank fen ++ replicate (N.to_nat e) 32%N /\
  (includes 32%N fen = false -> includes 32%N (flush (fen, e)) = false) /\
  (includes 47%N fen = false -> includes 47%N (flush (fen, e)) = false).
Proof.
  intros He. unfold flush. cbn [fst snd].
  destruct (small_cases e He) as [->|[->|[->|[->|[->|[->|[->|[->| ->]]]]]]]];
    cbn [N.ltb N.compare]; try (rewrite decode_rank_app);
    repeat split; try (rewrite app_nil_r; reflexivity); try reflexivity;
    try (intros H; try exact H; rewrite includes_app, H; reflexivity).
Qed.

Lemma wf_square_decode c : wf_square c = true -> (c =? 32)%N = false ->
  decode_rank [c] = [c] /\ includes 32%N [c] = false /\ includes 47%N [c] = false.
Proof.
  unfold wf_square, decode_rank, includes. cbn [flat_map existsb].
  intros H H32. apply andb_prop in H as [H47 Hd].
  apply negb_true_iff in H47, Hd. rewrite Hd.
  rewrite (N.eqb_sym 32 c), (N.eqb_sym 47 c), H32, H47. repeat split; reflexivity.
Qed.

Lemma enc_step_eq fen e c :
  enc_step (fen, e) c
  = if (c =? 32)%N then (fen, (e + 1)%N) else (flush (fen, e) ++ [c], 0%N).
Proof. reflexivity. Qed.

Lemma enc_step_inv cells : forall fen e,
  forallb wf_square cells = true ->
  (e + N.of_nat (length cells) <= 8)%N ->
  let r := fold_left enc_step cells (fen, e) in
  decode_rank (fst r) ++ replicate (N.to_nat (snd r)) 32%N
  = decode_rank fen ++ replicate (N.to_nat e) 32%N ++ cells /\
  (snd r <= e + N.of_nat (length cells))%N /\
  (includes 32%N fen = false -> includes 32%N (fst r) = false) /\
  (includes 47%N fen = false -> includes 47%N (fst r) = false).
Proof.
  induction cells as [|c cells IH]; intros fen e Hwf Hlen.
  - cbn [fold_left fst snd length]. rewrite app_nil_r. repeat split; auto. lia.
  - cbn [forallb] in Hwf. apply andb_prop in Hwf as [Hc Hwf].
    cbn [length] in Hlen. cbn [fold_left length]. rewrite enc_step_eq.
    destruct (c =? 32)%N eqn:H32.
    + apply N.eqb_eq in H32. subst c.
      destruct (IH fen (e + 1)%N Hwf ltac:(lia)) as (Hd & Hb & H1 & H2).
      cbv zeta. repeat split; try assumption; [|lia].
      rewrite Hd. f_equal.
      replace (N.to_nat (e + 1)) with (S (N.to_nat e)) by lia.
      apply replicate_snoc.
    + destruct (wf_square_decode c Hc H32) as (Hdc & Hc32 & Hc47).
      destruct (flush_spec fen e ltac:(lia)) as (Hf & Hf32 & Hf47).
      destruct (IH (flush (fen, e) ++ [c]) 0%N Hwf ltac:(lia)) as (Hd & Hb & H1 & H2).
      cbv zeta. repeat split.
      * rewrite Hd, decode_rank_app, Hf, Hdc. cbn [N.to_nat replicate app].
        rewrite <- !app_assoc. reflexivity.
      * lia.
      * intros H. apply H1. rewrite includes_app, (Hf32 H), Hc32. reflexivity.
      * intros H. apply H2. rewrite includes_app, (Hf47 H), Hc47. reflexivity.
Qed.

Lemma enc_step_prefix cells : forall p x e,
  fold_left enc_step cells (p ++ x, e)
  = (p ++ fst (fold_left enc_step cells (x, e)), snd (fold_left enc_step cells (x, e))).
Proof.
  induction cells as [|c cells IH]; intros p x e; [reflexivity|].
  cbn [fold_left]. rewrite !enc_step_eq.
  destruct (c =? 32)%N; [apply IH|].
  unfold flush. cbn [fst snd]. destruct (0 <? e)%N.
  - rewrite <- !app_assoc. apply IH.
  - rewrite <- app_assoc. apply IH.
Qed.

Lemma fold_fen_square rest : forall pre acc,
  fold_left (fen_square (pre ++ rest)) (seq (length pre) (length rest)) acc
  = fold_left enc_step rest acc.
Proof.
  induction rest as [|c rest IH]; intros pre acc; [reflexivity|].
  cbn [length seq fold_left].
  assert (E : fen_square (pre ++ c :: rest) acc (length pre) = enc_step acc c).
  { destruct acc as [fen e]. rewrite enc_step_eq. unfold fen_square, flush.
    cbn [fst snd]. rewrite list_lookup_middle by reflexivity.
    destruct (N.eqb_spec c 32) as [->|Hc].
    - rewrite bool_decide_eq_true_2 by reflexivity. reflexivity.
    - rewrite bool_decide_eq_false_2 by congruence. reflexivity. }
  rewrite E.
  replace (pre ++ c :: rest) with ((pre ++ [c]) ++ rest) by (rewrite <- app_assoc; reflexivity).
  replace (S (length pre)) with (length (pre ++ [c])) by (rewrite length_app; simpl; lia).
  apply IH.
Qed.

Lemma enc_rank_spec r :
  length r = 8%nat -> forallb wf_square r = true ->
  decode_rank (enc_rank r) = r /\
  includes 32%N (enc_rank r) = false /\ includes 47%N (enc_rank r) = false.
Proof.
  intros Hl Hwf. unfold enc_rank.
  destruct (enc_step_inv r [] 0%N Hwf ltac:(lia)) as (Hd & Hb & H1 & H2).
  destruct (fold_left enc_step r ([], 0%N)) as [x e]. cbn [fst snd] in *.
  destruct (flush_spec x e ltac:(lia)) as (Hf & Hf32 & Hf47).
  rewrite Hf, Hd. repeat split; [apply Hf32, H1|apply Hf47, H2]; reflexivity.
Qed.

Lemma fen_row_spec b fen row r :
  b !! row = Some r -> length r = 8%nat ->
  fen_row b (Some fen) row
  = Some (fen ++ enc_rank r ++ (if (row <? 7)%nat then [47%N] else [])).
Proof.
  intros Hb Hl. unfold fen_row. rewrite Hb.
  pose proof (fold_fen_square r [] (fen, 0%N)) as E.
  cbn [app length] in E. rewrite Hl in E. rewrite E.
  pose proof (enc_step_prefix r fen [] 0%N) as P. rewrite app_nil_r in P. rewrite P.
  unfold enc_rank, flush.
  destruct (fold_left enc_step r ([], 0%N)) as [x e]. cbn [fst snd].
  change (js "/") with [47%N].
  destruct (0 <? e)%N, (row <? 7)%nat; rewrite <- ?app_assoc, ?app_nil_r; reflexivity.
Qed.

Lemma castling_roundtrip c :
  let t := str_or (Has (castlingText c)) (js "-") in
  mkCastling (includes 75%N t) (includes 81%N t) (includes 107%N t) (includes 113%N t) = c
  /\ includes 32%N t = false.
Proof. destruct c as [[] [] [] []]; split; reflexivity. Qed.

Lemma enPassant_roundtrip e :
  wf_enPassant e = true ->
  let t := str_or e (js "-") in
  (if str_eqb t (js "-") then Null else Has t) = e /\ includes 32%N t = false.
Proof.
  destruct e as [| |[|c t]]; try discriminate; [split; reflexivity|].
  cbn [wf_enPassant str_or]. intros H. apply andb_prop in H as [H1 H2].
  apply negb_true_iff in H1, H2. rewrite H2. split; [reflexivity|exact H1].
Qed.

Lemma decode_rows_eight x0 x1 x2 x3 x4 x5 x6 x7 :
  decode_rows [x0; x1; x2; x3; x4; x5; x6; x7]
  = Some [decode_rank x0; decode_rank x1; decode_rank x2; decode_rank x3;
          decode_rank x4; decode_rank x5; decode_rank x6; decode_rank x7].
Proof. reflexivity. Qed.

Lemma wf_board_eight b :
  wf_board b = true ->
  exists r0 r1 r2 r3 r4 r5 r6 r7,
    b = [r0; r1; r2; r3; r4; r5; r6; r7] /\
    Forall (fun r => length r = 8%nat /\ forallb wf_square r = true) b.
Proof.
  unfold wf_board. intros H. apply andb_prop in H as [Hl Hr].
  apply Nat.eqb_eq in Hl.
  assert (HF : Forall (fun r => length r = 8%nat /\ forallb wf_square r = true) b).
  { apply Forall_forall. intros r Hin.
    rewrite forallb_forall in Hr. specialize (Hr r).
    assert (Hin' : In r b) by (apply list_elem_of_In; exact Hin).
    specialize (Hr Hin'). apply andb_prop in Hr as [H1 H2].
    apply Nat.eqb_eq in H1. split; assumption. }
  destruct b as [|r0 [|r1 [|r2 [|r3 [|r4 [|r5 [|r6 [|r7 [|r8 b]]]]]]]]]; try discriminate.
  exists r0, r1, r2, r3, r4, r5, r6, r7. split; [reflexivity|exact HF].
Qed.

Lemma fen_text_decodes s :
  wf_state (state s) = true ->
  exists fen,
    generateFEN s = Some fen /\
    length (split_on 32%N fen) = 6%nat /\
    split_on 32%N fen !! 1%nat
    = Some (match currentTurn s with Player1 => js "w" | Player2 => js "b" end) /\
    (forall st0,
        updateBoardFromFEN st0 fen
        = mkChessState (board (state s)) (perspective st0) (lastMove st0) (check st0)
                       (castlingRights (state s)) (enPassantTarget (state s))
                       (halfMoveClock (state s)) (fullMoveNumber (state s))).
Proof.
  unfold wf_state. intros H.
  apply andb_prop in H as [H Hfull]. apply andb_prop in H as [H Hhalf].
  apply andb_prop in H as [Hb Hep].
  destruct (wf_board_eight _ Hb) as (r0 & r1 & r2 & r3 & r4 & r5 & r6 & r7 & Eb & HF).
  rewrite Eb in HF.
  repeat match goal with
  | HF : Forall _ (_ :: _) |- _ =>
      let Hh := fresh "Hr" in
      pose proof (Forall_inv HF) as Hh; cbv beta in Hh; apply Forall_inv_tail in HF
  end.
  clear HF.
  repeat match goal with
  | Hr : length ?r = 8%nat /\ forallb wf_square ?r = true |- _ =>
      let L := fresh "L" in let W := fresh "W" in
      destruct Hr as [L W];
      let D := fresh "D" in let S := fresh "S" in let P := fresh "P" in
      destruct (enc_rank_spec r L W) as (D & S & P)
  end.
  unfold generateFEN. rewrite Eb. cbn [seq fold_left].
  rewrite (fen_row_spec _ _ 0 r0) by (reflexivity || assumption).
  rewrite (fen_row_spec _ _ 1 r1) by (reflexivity || assumption).
  rewrite (fen_row_spec _ _ 2 r2) by (reflexivity || assumption).
  rewrite (fen_row_spec _ _ 3 r3) by (reflexivity || assumption).
  rewrite (fen_row_spec _ _ 4 r4) by (reflexivity || assumption).
  rewrite (fen_row_spec _ _ 5 r5) by (reflexivity || assumption).
  rewrite (fen_row_spec _ _ 6 r6) by (reflexivity || assumption).
  rewrite (fen_row_spec _ _ 7 r7) by (reflexivity || assumption).
  cbn [Nat.ltb Nat.leb].
  eexists. split; [reflexivity|].
  destruct (castling_roundtrip (castlingRights (state s))) as (Hc & Hc32).
  destruct (enPassant_roundtrip _ Hep) as (He & He32).
  set (ct := str_or (Has (castlingText (castlingRights (state s)))) (js "-")) in *.
  set (et := str_or (enPassantTarget (state s)) (js "-")) in *.
  pose proof (numToString_no_space (halfMoveClock (state s))) as Hh32.
  pose proof (numToString_no_space (fullMoveNumber (state s))) as Hf32.
  set (ht := numToString (halfMoveClock (state s))) in *.
  set (ft := numToString (fullMoveNumber (state s))) in *.
  set (tt := match currentTurn s with Player1 => js "w" | Player2 => js "b" end).
  assert (Ht32 : includes 32%N tt = false) by (subst tt; destruct (currentTurn s); reflexivity).
  change (js " ") with [32%N].
  set (pos := enc_rank r0 ++ 47%N :: enc_rank r1 ++ 47%N :: enc_rank r2 ++ 47%N ::
              enc_rank r3 ++ 47%N :: enc_rank r4 ++ 47%N :: enc_rank r5 ++ 47%N ::
              enc_rank r6 ++ 47%N :: enc_rank r7).
  assert (Hpos32 : includes 32%N pos = false).
  { subst pos. repeat (rewrite includes_app || rewrite includes_cons).
    repeat match goal with H : includes 32%N (enc_rank _) = false |- _ => rewrite H; clear H end.
    reflexivity. }
  match goal with
  | |- context [split_on 32%N ?f] =>
      assert (Eall : f = pos ++ 32%N :: tt ++ 32%N :: ct ++ 32%N :: et
                           ++ 32%N :: ht ++ 32%N :: ft)
        by (subst pos; repeat (rewrite <- app_assoc || rewrite <- app_comm_cons);
            cbn [app]; reflexivity);
      rewrite Eall; clear Eall
  end.
  assert (Hparts : split_on 32%N (pos ++ 32%N :: tt ++ 32%N :: ct ++ 32%N :: et
                                      ++ 32%N :: ht ++ 32%N :: ft)
                   = [pos; tt; ct; et; ht; ft]).
  { rewrite (split_on_app 32%N pos _ Hpos32), (split_on_app 32%N tt _ Ht32),
      (split_on_app 32%N ct _ Hc32), (split_on_app 32%N et _ He32),
      (split_on_app 32%N ht _ Hh32), (split_on_none 32%N ft Hf32). reflexivity. }
  assert (Hdec : forall st0,
             updateBoardFromFEN st0 (pos ++ 32%N :: tt ++ 32%N :: ct ++ 32%N :: et
                                         ++ 32%N :: ht ++ 32%N :: ft)
             = mkChessState [r0; r1; r2; r3; r4; r5; r6; r7] (perspective st0)
                            (lastMove st0) (check st0) (castlingRights (state s))
                            (enPassantTarget (state s)) (halfMoveClock (state s))
                            (fullMoveNumber (state s))).
  { intros st0. unfold updateBoardFromFEN. rewrite Hparts.
    cbn [lookup list_lookup default from_option]. unfold id.
    subst pos.
    repeat match goal with
    | H : includes 47%N (enc_rank ?r) = false
      |- context [split_on 47%N (enc_rank ?r ++ 47%N :: _)] =>
        rewrite (split_on_app 47%N (enc_rank r) _ H)
    end.
    rewrite (split_on_none 47%N (enc_rank r7)) by assumption.
    rewrite decode_rows_eight.
    repeat match goal with H : decode_rank (enc_rank _) = _ |- _ => rewrite H end.
    cbn [parseInt10_opt]. subst ht ft. rewrite !parseInt10_numToString.
    rewrite Hc, He. reflexivity. }
  split; [rewrite Hparts; reflexivity|].
  split; [rewrite Hparts; reflexivity|].
  exact Hdec.
Qed.

(** C5, as the code has it. For a well-formed canonical state (eight ranks of
    eight squares that are neither "/" nor a digit 1 to 8; an en-passant
    target that is null or a non-empty text without space other than "-";
    clocks that are NaN or safe integers), [generateFEN] returns a text of six
    fields whose second is the side to move, and [updateBoardFromFEN] of that text,
    from any state, yields the board, castling rights, en-passant target and
    both clocks that were encoded (the other properties of the state it is
    applied to are kept); applied to the session that was encoded it leaves
    that session, side to move included, as it was. *)
Theorem fen_roundtrip_wellformed s :
  wf_state (state s) = true ->
  exists fen,
    generateFEN s = Some fen /\
    length (split_on 32%N fen) = 6%nat /\
    split_on 32%N fen !! 1%nat
    = Some (match currentTurn s with Player1 => js "w" | Player2 => js "b" end) /\
    (forall st0,
        updateBoardFromFEN st0 fen
        = mkChessState (board (state s)) (perspective st0) (lastMove st0) (check st0)
                       (castlingRights (state s)) (enPassantTarget (state s))
                       (halfMoveClock (state s)) (fullMoveNumber (state s))) /\
    updateBoardFromFEN (state s) fen = state s /\
    updateBoardFromFEN_on s fen = s.
Proof.
  intros Hwf.
  destruct (fen_text_decodes s Hwf) as (fen & Hgen & Hsix & Hturn & Hdec).
  exists fen.
  split; [exact Hgen|]. split; [exact Hsix|]. split; [exact Hturn|].
  split; [exact Hdec|].
  assert (Hin : updateBoardFromFEN (state s) fen = state s).
  { rewrite Hdec. destruct (state s); reflexivity. }
  split; [exact Hin|].
  unfold updateBoardFromFEN_on. rewrite Hin. destruct s; reflexivity.
Qed.

Lemma fen_roundtrip_wellformed_witness :
  wf_state (state after_e2e4) = true /\
  exists fen,
    generateFEN after_e2e4 = Some fen /\
    length (split_on 32%N fen) = 6%nat /\
    split_on 32%N fen !! 1%nat
    = Some (match currentTurn after_e2e4 with Player1 => js "w" | Player2 => js "b" end) /\
    (forall st0,
        updateBoardFromFEN st0 fen
        = mkChessState (board (state after_e2e4)) (perspective st0) (lastMove st0)
                       (check st0) (castlingRights (state after_e2e4))
                       (enPassantTarget (state after_e2e4))
                       (halfMoveClock (state after_e2e4))
                       (fullMoveNumber (state after_e2e4))) /\
    updateBoardFromFEN (state after_e2e4) fen = state after_e2e4 /\
    updateBoardFromFEN_on after_e2e4 fen = after_e2e4.
Proof.
  split; [reflexivity|].
  apply (fen_roundtrip_wellformed after_e2e4). reflexivity.
Defined.

(** C5, as stated, fails.  Sessions reached through a validated reply with a
    malformed position do not survive the round trip: a rank of nine squares,
    or a text of three fields, which leaves the en-passant target undefined.
    So do states whose en-passant target is the empty text, "-" or a text with
    a space.  And the side to move is written but never read back: the text
    of a position with black to move, decoded into a session with white to
    move, leaves white to move. *)
Lemma fen_roundtrip_fails_after_malformed_reply :
  (reachable after_nine /\
   exists fen, generateFEN after_nine = Some fen /\
               updateBoardFromFEN (state after_nine) fen <> state after_nine) /\
  (reachable after_three_fields /\
   wf_board (board (state after_three_fields)) = true /\
   enPassantTarget (state after_three_fields) = Absent /\
   exists fen, generateFEN after_three_fields = Some fen /\
               updateBoardFromFEN (state after_three_fields) fen
               <> state after_three_fields) /\
  (forall e, e = Has [] \/ e = Has (js "-") \/ e = Has (js "e 3") ->
   exists fen, generateFEN (with_enPassant ana_vs_ai e) = Some fen /\
               updateBoardFromFEN (state (with_enPassant ana_vs_ai e)) fen
               <> state (with_enPassant ana_vs_ai e)) /\
  (exists fen, generateFEN after_e2e4 = Some fen /\
               currentTurn after_e2e4 = Player2 /\
               currentTurn (updateBoardFromFEN_on ana_vs_ai fen) = Player1).
Proof.
  split; [|split; [|split]].
  - split.
    + unfold after_nine. apply reach_processMove. apply reach_initialize.
    + eexists. split; [vm_compute; reflexivity|]. vm_compute. discriminate.
  - split; [unfold after_three_fields; apply reach_processMove; apply reach_initialize|].
    split; [vm_compute; reflexivity|]. split; [vm_compute; reflexivity|].
    eexists. split; [vm_compute; reflexivity|]. vm_compute. discriminate.
  - intros e [->|[->| ->]]; eexists; (split; [vm_compute; reflexivity|]);
      vm_compute; discriminate.
  - eexists. split; [vm_compute; reflexivity|]. split; reflexivity.
Qed.

(** ** Further properties of the engine *)

(** *** Rendering *)

(** X1. [generateFEN], [renderChessBoard] and [renderGame] throw exactly when the
    board has fewer than eight ranks. *)
Theorem throws_iff_short_board s (b : list (list N)) perspective :
  (generateFEN s = None <-> (length (board (state s)) < 8)%nat) /\
  (renderChessBoard b perspective = None <-> (length b < 8)%nat) /\
  (renderGame s = None <-> (length (board (state s)) < 8)%nat).
Proof.
  split; [apply generateFEN_None_iff|].
  split; [apply renderChessBoard_None_iff|apply renderGame_None_iff].
Qed.

Lemma throws_iff_short_board_witness :
  generateFEN without_ranks = None /\
  renderChessBoard [] (js "white") = None /\
  renderGame without_ranks = None /\
  generateFEN ana_vs_ai <> None.
Proof.
  pose proof (throws_iff_short_board without_ranks [] (js "white")) as (H1 & H2 & H3).
  pose proof (throws_iff_short_board ana_vs_ai [] (js "white")) as (H4 & _ & _).
  split; [apply H1; vm_compute; lia|].
  split; [apply H2; vm_compute; lia|].
  split; [apply H3; vm_compute; lia|].
  intros E. apply H4 in E. vm_compute in E. lia.
Defined.

Lemma pieceSymbol_length p : length (pieceSymbol p) = 1%nat.
Proof.
  destruct p as [[|p]|]; try reflexivity.
  do 7 (destruct p as [p|p|]; try reflexivity).
Qed.

Lemma renderRow_length (b : list (list N)) black out row out' :
  (row < 8)%nat ->
  renderRow b black (Some out) row = Some out' ->
  length out' = (length out + 76)%nat.
Proof.
  intros Hrow. unfold renderRow.
  destruct (b !! (if black then row else (7 - row)%nat)) as [r|]; [|discriminate].
  intros H. apply (inj Some) in H. subst out'.
  cbn [seq fold_left].
  assert (Hn : length (N_to_js (N.of_nat (8 - (if black then row else 7 - row)))) = 1%nat).
  { do 8 (destruct row as [|row]; [destruct black; reflexivity|]). lia. }
  assert (Hsep : length (if (row <? 7)%nat
                         then js "  ├───┼───┼───┼───┼───┼───┼───┼───┤  " ++ [10%N]
                         else js "  └───┴───┴───┴───┴───┴───┴───┴───┘  " ++ [10%N])
                 = 38%nat).
  { destruct (row <? 7)%nat; reflexivity. }
  rewrite !length_app, !pieceSymbol_length, Hn, Hsep.
  change (length (js " │")) with 2%nat. change (length (js " ")) with 1%nat.
  simpl. lia.
Qed.

(** X2. The board text of [renderChessBoard] has 729 code units, whatever code
    unit each square holds and whichever the perspective. *)
Theorem renderChessBoard_fixed_size (b : list (list N)) perspective out :
  renderChessBoard b perspective = Some out -> length out = 729%nat.
Proof.
  unfold renderChessBoard. cbn [seq fold_left].
  set (black := str_eqb perspective (js "black")).
  set (o := js "    a   b   c   d   e   f   g   h    " ++ [10%N]
            ++ js "  ┌───┬───┬───┬───┬───┬───┬───┬───┐  " ++ [10%N]).
  assert (Ho : length o = 76%nat) by reflexivity.
  destruct (renderRow b black (Some o) 0) as [o0|] eqn:E0;
    [|cbv beta iota delta [renderRow]; discriminate].
  destruct (renderRow b black (Some o0) 1) as [o1|] eqn:E1; [|discriminate].
  destruct (renderRow b black (Some o1) 2) as [o2|] eqn:E2; [|discriminate].
  destruct (renderRow b black (Some o2) 3) as [o3|] eqn:E3; [|discriminate].
  destruct (renderRow b black (Some o3) 4) as [o4|] eqn:E4; [|discriminate].
  destruct (renderRow b black (Some o4) 5) as [o5|] eqn:E5; [|discriminate].
  destruct (renderRow b black (Some o5) 6) as [o6|] eqn:E6; [|discriminate].
  destruct (renderRow b black (Some o6) 7) as [o7|] eqn:E7; [|discriminate].
  apply renderRow_length in E0, E1, E2, E3, E4, E5, E6, E7; try lia.
  intros H. apply (inj Some) in H. subst out.
  rewrite !length_app.
  change (length (js "```")) with 3%nat.
  change (length (js "    a   b   c   d   e   f   g   h    ")) with 37%nat.
  simpl. lia.
Qed.

Lemma renderChessBoard_fixed_size_witness :
  exists out, renderChessBoard initialBoard (js "black") = Some out /\
              length out = 729%nat.
Proof.
  destruct (renderChessBoard initialBoard (js "black")) as [out|] eqn:E;
    [|vm_compute in E; discriminate].
  exists out. split; [reflexivity|].
  exact (renderChessBoard_fixed_size initialBoard (js "black") out E).
Defined.


(** *** Sessions the program can hold *)

Lemma step_inv s s' :
  step s s' ->
  s' = s \/
  (exists playerId moveText response t1 t2,
      s' = acceptMove s playerId moveText (parseMoveResponse s response) t1 t2) \/
  (exists playerId t1 t2,
      isFinished s = false /\
      s' = set_endTime
             (set_winner (push_move s (mkMove playerId (Has (js "surrender")) Absent t1))
                (Has (Won (if str_eqb playerId (pid (player1 s))
                           then Player2 else Player1))))
             (Some t2)).
Proof.
  intros [s0 ask t1 t2 playerId moveText|s0 oracle t1 t2|s0 t1 t2 playerId].
  - destruct (processMove_state ask t1 t2 s0 playerId moveText) as [->|[response ->]];
      [left; reflexivity|].
    right; left. exists playerId, (Has moveText), response, t1, t2. reflexivity.
  - destruct (generateAIMove_state oracle t1 t2 s0) as [->|(moveText & response & ->)];
      [left; reflexivity|].
    right; left. exists (pid (player2 s0)), (Has moveText), response, t1, t2. reflexivity.
  - unfold surrender. destruct (isFinished s0) eqn:Hf; [left; reflexivity|].
    destruct (negb (str_eqb playerId (pid (player1 s0)))
              && negb (str_eqb playerId (pid (player2 s0)))); [left; reflexivity|].
    right; right. exists playerId, t1, t2. split; [reflexivity|].
    destruct (renderGame _); reflexivity.
Qed.

Lemma reachable_step s s' : reachable s -> step s s' -> reachable s'.
Proof.
  intros Hr Hs. destruct Hs as [s ask t1 t2 playerId moveText|s oracle t1 t2|s t1 t2 playerId].
  - apply reach_processMove. exact Hr.
  - apply reach_generateAIMove. exact Hr.
  - apply reach_surrender. exact Hr.
Qed.

Lemma step_board s s' :
  step s s' -> length (board (state s)) = 8%nat -> length (board (state s')) = 8%nat.
Proof.
  intros Hs H.
  destruct (step_inv s s' Hs)
    as [->|[(p & m & r & t1 & t2 & ->)|(p & t1 & t2 & _ & ->)]].
  - exact H.
  - apply acceptMove_board. exact H.
  - exact H.
Qed.

Lemma reachable_board_eight s : reachable s -> length (board (state s)) = 8%nat.
Proof.
  induction 1 as [p1 n1 p2 n2 ai now
                 | s ask t1 t2 playerId moveText Hr IH
                 | s oracle t1 t2 Hr IH
                 | s t1 t2 playerId Hr IH].
  - reflexivity.
  - eapply step_board; [apply step_processMove|exact IH].
  - eapply step_board; [apply step_generateAIMove|exact IH].
  - eapply step_board; [apply step_surrender|exact IH].
Qed.

Lemma reachable_after_e2e4 : reachable after_e2e4.
Proof. unfold after_e2e4. apply reach_processMove. apply reach_initialize. Qed.

Lemma reachable_finished_game : reachable finished_game.
Proof. unfold finished_game. apply reach_surrender. exact reachable_after_e2e4. Qed.

(** X3. In every session the program can hold the board has eight ranks, so
    neither [generateFEN] nor [renderGame] throws. *)
Theorem reachable_never_throws s :
  reachable s ->
  length (board (state s)) = 8%nat /\
  (exists fen, generateFEN s = Some fen) /\
  (exists text, renderGame s = Some text).
Proof.
  intros Hr. pose proof (reachable_board_eight s Hr) as H8.
  split; [exact H8|]. split.
  - destruct (generateFEN s) as [fen|] eqn:E; [exists fen; reflexivity|].
    apply generateFEN_None_iff in E. lia.
  - destruct (renderGame s) as [text|] eqn:E; [exists text; reflexivity|].
    apply renderGame_None_iff in E. lia.
Qed.

Lemma reachable_never_throws_witness :
  reachable after_e2e4 /\
  length (board (state after_e2e4)) = 8%nat /\
  (exists fen, generateFEN after_e2e4 = Some fen) /\
  (exists text, renderGame after_e2e4 = Some text).
Proof.
  split; [exact reachable_after_e2e4|].
  exact (reachable_never_throws after_e2e4 reachable_after_e2e4).
Defined.


(** X4. [processMove] is all or nothing on the sessions the program can hold: a
    result that is not a success leaves the session as it was, and a success
    means that the service's reply was valid and exactly one move was added. *)
Theorem processMove_all_or_nothing ask t1 t2 this playerId moveText :
  reachable this ->
  (success (snd (processMove ask t1 t2 this playerId moveText)) = false ->
   fst (processMove ask t1 t2 this playerId moveText) = this) /\
  (success (snd (processMove ask t1 t2 this playerId moveText)) = true ->
   exists prompt reply,
     buildMovePrompt this playerId moveText = Some prompt /\
     ask prompt = Some reply /\
     truthy_bool (r_valid (parseMoveResponse this reply)) = true /\
     fst (processMove ask t1 t2 this playerId moveText)
     = acceptMove this playerId (Has moveText) (parseMoveResponse this reply) t1 t2 /\
     moveHistory (fst (processMove ask t1 t2 this playerId moveText))
     = moveHistory this
       ++ [mkMove playerId (Has moveText)
                  (r_normalizedMove (parseMoveResponse this reply)) t1]).
Proof.
  intros Hr. pose proof (reachable_board_eight this Hr) as H8.
  unfold processMove.
  destruct (isFinished this); [split; [reflexivity|discriminate]|].
  destruct (negb (isPlayerTurn this playerId)); [split; [reflexivity|discriminate]|].
  destruct (buildMovePrompt this playerId moveText) as [prompt|] eqn:Hp;
    [|split; [reflexivity|discriminate]].
  destruct (ask prompt) as [reply|] eqn:Ha; [|split; [reflexivity|discriminate]].
  destruct (truthy_bool (r_valid (parseMoveResponse this reply))) eqn:Hv;
    [|split; [reflexivity|discriminate]].
  pose proof (acceptMove_board this playerId (Has moveText)
                (parseMoveResponse this reply) t1 t2 H8) as H8'.
  destruct (renderGame _) as [text|] eqn:E.
  - split; [discriminate|]. intros _. exists prompt, reply.
    split; [reflexivity|]. split; [exact Ha|]. split; [exact Hv|].
    split; [reflexivity|]. apply acceptMove_fields.
  - apply renderGame_None_iff in E. lia.
Qed.

Lemma processMove_all_or_nothing_witness :
  (* a reply that is not valid: nothing changes *)
  fst (processMove (fun _ => Some (js "No sé.")) 3%N 4%N after_e2e4 (js "AI") (js "e7e5"))
  = after_e2e4 /\
  (* a valid reply: one move is added *)
  exists prompt reply,
    buildMovePrompt ana_vs_ai (js "1001") (js "e2e4") = Some prompt /\
    Some reply_e2e4 = Some reply /\
    truthy_bool (r_valid (parseMoveResponse ana_vs_ai reply)) = true /\
    fst (processMove (fun _ => Some reply_e2e4) 1%N 2%N ana_vs_ai (js "1001") (js "e2e4"))
    = acceptMove ana_vs_ai (js "1001") (Has (js "e2e4"))
                 (parseMoveResponse ana_vs_ai reply) 1%N 2%N /\
    moveHistory (fst (processMove (fun _ => Some reply_e2e4) 1%N 2%N ana_vs_ai
                                  (js "1001") (js "e2e4")))
    = moveHistory ana_vs_ai
      ++ [mkMove (js "1001") (Has (js "e2e4"))
                 (r_normalizedMove (parseMoveResponse ana_vs_ai reply)) 1%N].
Proof.
  split.
  - apply (proj1 (processMove_all_or_nothing (fun _ => Some (js "No sé.")) 3%N 4%N
                    after_e2e4 (js "AI") (js "e7e5") reachable_after_e2e4)).
    vm_compute. reflexivity.
  - apply (proj2 (processMove_all_or_nothing (fun _ => Some reply_e2e4) 1%N 2%N
                    ana_vs_ai (js "1001") (js "e2e4")
                    (reach_initialize (js "1001") (js "Ana") (js "AI") (js "IA") true 0%N))).
    vm_compute. reflexivity.
Defined.


(** X5. On the sessions the program can hold, [generateAIMove] changes the session
    only when it reports a success: a result that is a failure, or no result
    at all (the guard), leaves the session as it was. *)
Theorem generateAIMove_all_or_nothing oracle t1 t2 this :
  reachable this ->
  (forall r, snd (generateAIMove oracle t1 t2 this) = Some r -> success r = false ->
             fst (generateAIMove oracle t1 t2 this) = this) /\
  (snd (generateAIMove oracle t1 t2 this) = None ->
   fst (generateAIMove oracle t1 t2 this) = this).
Proof.
  intros Hr. pose proof (reachable_board_eight this Hr) as H8.
  unfold generateAIMove.
  destruct (negb (vsAI this) || negb (isAITurn this) || isFinished this);
    [split; intros; reflexivity|].
  destruct (fst (attemptLoop oracle this MAX_INTENTOS 0 0 [])) as [mr| |];
    [|split; intros; reflexivity|split; intros; reflexivity].
  pose proof (acceptMove_board this (pid (player2 this)) (r_moveText mr) mr t1 t2 H8)
    as H8'.
  destruct (renderGame _) as [text|] eqn:E.
  - split; [|discriminate]. intros r Hres Hs. apply (inj Some) in Hres. subst r.
    discriminate.
  - apply renderGame_None_iff in E. lia.
Qed.

Lemma generateAIMove_all_or_nothing_witness :
  reachable after_e2e4 /\
  fst (generateAIMove oracle_mute 3%N 4%N after_e2e4) = after_e2e4 /\
  fst (generateAIMove oracle_mute 3%N 4%N ana_vs_bob) = ana_vs_bob.
Proof.
  split; [exact reachable_after_e2e4|]. split.
  - destruct (snd (generateAIMove oracle_mute 3%N 4%N after_e2e4)) as [r|] eqn:E.
    + apply (proj1 (generateAIMove_all_or_nothing oracle_mute 3%N 4%N after_e2e4
                      reachable_after_e2e4) r E).
      vm_compute in E. apply (inj Some) in E. subst r. reflexivity.
    + vm_compute in E. discriminate.
  - apply (proj2 (generateAIMove_all_or_nothing oracle_mute 3%N 4%N ana_vs_bob
                    (reach_initialize (js "1001") (js "Ana") (js "1002") (js "Bob")
                                      false 0%N))).
    vm_compute. reflexivity.
Defined.

(** X6. On the sessions the program can hold, [surrender] never throws: it
    returns a result, whoever asks. *)
Theorem surrender_returns t1 t2 this playerId :
  reachable this -> exists r, snd (surrender t1 t2 this playerId) = Some r.
Proof.
  intros Hr. pose proof (reachable_board_eight this Hr) as H8.
  unfold surrender.
  destruct (isFinished this); [eexists; reflexivity|].
  destruct (negb (str_eqb playerId (pid (player1 this)))
            && negb (str_eqb playerId (pid (player2 this))));
    [eexists; reflexivity|].
  destruct (renderGame _) as [text|] eqn:E; [eexists; reflexivity|].
  apply renderGame_None_iff in E.
  cbn [state set_endTime set_winner push_move] in E. lia.
Qed.

Lemma surrender_returns_witness :
  reachable after_e2e4 /\
  exists r, snd (surrender 5%N 6%N after_e2e4 (js "1001")) = Some r.
Proof.
  split; [exact reachable_after_e2e4|].
  exact (surrender_returns 5%N 6%N after_e2e4 (js "1001") reachable_after_e2e4).
Defined.


(** X7. A finished session is immutable: no operation changes it. *)
Theorem finished_is_immutable s s' :
  isFinished s = true -> step s s' -> s' = s.
Proof.
  intros Hf Hs.
  destruct Hs as [s ask t1 t2 playerId moveText|s oracle t1 t2|s t1 t2 playerId].
  - unfold processMove. rewrite Hf. reflexivity.
  - unfold generateAIMove. rewrite Hf, orb_true_r. reflexivity.
  - unfold surrender. rewrite Hf. reflexivity.
Qed.

Lemma finished_is_immutable_witness :
  isFinished finished_game = true /\
  fst (processMove (fun _ => Some reply_e7e5) 7%N 8%N finished_game (js "AI") (js "e7e5"))
  = finished_game /\
  fst (generateAIMove oracle_e7e5 7%N 8%N finished_game) = finished_game /\
  fst (surrender 7%N 8%N finished_game (js "AI")) = finished_game.
Proof.
  assert (Hf : isFinished finished_game = true) by (vm_compute; reflexivity).
  split; [exact Hf|]. split; [|split].
  - exact (finished_is_immutable finished_game _ Hf
             (step_processMove finished_game (fun _ => Some reply_e7e5) 7%N 8%N
                               (js "AI") (js "e7e5"))).
  - exact (finished_is_immutable finished_game _ Hf
             (step_generateAIMove finished_game oracle_e7e5 7%N 8%N)).
  - exact (finished_is_immutable finished_game _ Hf
             (step_surrender finished_game 7%N 8%N (js "AI"))).
Defined.


Lemma step_history s s' :
  step s s' ->
  exists added, moveHistory s' = moveHistory s ++ added /\ (length added <= 1)%nat.
Proof.
  intros Hs.
  destruct (step_inv s s' Hs)
    as [->|[(p & m & r & t1 & t2 & ->)|(p & t1 & t2 & _ & ->)]].
  - exists []. rewrite app_nil_r. split; [reflexivity|simpl; lia].
  - eexists. split; [apply acceptMove_fields|simpl; lia].
  - eexists. split; [reflexivity|simpl; lia].
Qed.

(** X8. The move history is append-only: one operation adds at most one entry at
    its end, and along any sequence of operations the earlier history is a
    prefix of the later one. *)
Theorem moveHistory_append_only s s' :
  (step s s' ->
   exists added, moveHistory s' = moveHistory s ++ added /\ (length added <= 1)%nat) /\
  (rtc step s s' -> moveHistory s `prefix_of` moveHistory s').
Proof.
  split; [apply step_history|].
  induction 1 as [s|s s1 s2 Hs _ IH]; [reflexivity|].
  destruct (step_history s s1 Hs) as (added & E & _).
  etransitivity; [|exact IH]. rewrite E. apply prefix_app_r. reflexivity.
Qed.

Lemma step_ana_after_e2e4 : step ana_vs_ai after_e2e4.
Proof. unfold after_e2e4. apply step_processMove. Qed.

Lemma steps_ana_finished : rtc step ana_vs_ai finished_game.
Proof.
  eapply rtc_l; [exact step_ana_after_e2e4|].
  eapply rtc_l; [|apply rtc_refl]. unfold finished_game. apply step_surrender.
Qed.

Lemma moveHistory_append_only_witness :
  (exists added, moveHistory after_e2e4 = moveHistory ana_vs_ai ++ added /\
                 (length added <= 1)%nat) /\
  moveHistory ana_vs_ai `prefix_of` moveHistory finished_game.
Proof.
  split.
  - exact (proj1 (moveHistory_append_only ana_vs_ai after_e2e4) step_ana_after_e2e4).
  - exact (proj2 (moveHistory_append_only ana_vs_ai finished_game) steps_ana_finished).
Defined.


Lemma step_identity s s' :
  step s s' ->
  player1 s' = player1 s /\ player2 s' = player2 s /\ vsAI s' = vsAI s /\
  startTime s' = startTime s /\ game_type s' = game_type s /\
  perspective (state s') = perspective (state s).
Proof.
  intros Hs.
  destruct (step_inv s s' Hs)
    as [->|[(p & m & r & t1 & t2 & ->)|(p & t1 & t2 & _ & ->)]].
  - repeat split.
  - unfold acceptMove, applyMove.
    assert (Hp : forall f, perspective (match f with
                                        | Has (c :: t) => updateBoardFromFEN (state s) (c :: t)
                                        | _ => state s
                                        end) = perspective (state s)).
    { intros [| |[|c t]]; try reflexivity. unfold updateBoardFromFEN.
      destruct (decode_rows _); [|reflexivity].
      destruct (split_on 32%N (c :: t) !! 2%nat); reflexivity. }
    destruct (truthy_bool (r_gameOver (parseMoveResponse s r))),
      (truthy_bool (r_valid (parseMoveResponse s r)));
      cbn [player1 player2 vsAI startTime game_type state perspective set_endTime
           set_winner set_state switchTurn set_currentTurn push_move];
      repeat split; try reflexivity; apply Hp.
  - repeat split.
Qed.

(** X9. However many operations follow, a session keeps its players, its mode
    (against the service or not), its start time, its game type and its
    perspective. *)
Theorem step_keeps_identity s s' :
  rtc step s s' ->
  player1 s' = player1 s /\ player2 s' = player2 s /\ vsAI s' = vsAI s /\
  startTime s' = startTime s /\ game_type s' = game_type s /\
  perspective (state s') = perspective (state s).
Proof.
  induction 1 as [s|s s1 s2 Hs _ IH]; [repeat split|].
  destruct (step_identity s s1 Hs) as (E1 & E2 & E3 & E4 & E5 & E6).
  destruct IH as (F1 & F2 & F3 & F4 & F5 & F6).
  rewrite F1, F2, F3, F4, F5, F6. repeat split; assumption.
Qed.

Lemma step_keeps_identity_witness :
  rtc step ana_vs_ai finished_game /\
  player1 finished_game = player1 ana_vs_ai /\
  player2 finished_game = player2 ana_vs_ai /\
  vsAI finished_game = vsAI ana_vs_ai /\
  startTime finished_game = startTime ana_vs_ai /\
  game_type finished_game = game_type ana_vs_ai /\
  perspective (state finished_game) = perspective (state ana_vs_ai).
Proof.
  split; [exact steps_ana_finished|].
  exact (step_keeps_identity ana_vs_ai finished_game steps_ana_finished).
Defined.


Lemma processMove_accepts ask t1 t2 this playerId moveText prompt reply :
  isFinished this = false ->
  isPlayerTurn this playerId = true ->
  buildMovePrompt this playerId moveText = Some prompt ->
  ask prompt = Some reply ->
  truthy_bool (r_valid (parseMoveResponse this reply)) = true ->
  fst (processMove ask t1 t2 this playerId moveText)
  = acceptMove this playerId (Has moveText) (parseMoveResponse this reply) t1 t2.
Proof.
  intros Hfin Hturn Hp Hask Hv. unfold processMove.
  rewrite Hfin, Hturn. simpl negb. cbv iota. rewrite Hp, Hask, Hv.
  destruct (renderGame _); reflexivity.
Qed.

Lemma processMove_on_finished ask t1 t2 this playerId moveText :
  isFinished this = true ->
  processMove ask t1 t2 this playerId moveText
  = (this, mkResult false (js "El juego ya ha terminado. " ++ getEndGameMessage this)
                    (Has true)).
Proof. intros Hf. unfold processMove. rewrite Hf. reflexivity. Qed.

(** X10. A valid reply that reports checkmate or a draw ends the game: the winner
    is the side that moved on checkmate and 'draw' otherwise, the end time is
    set, the turn stays, and every later move is refused as game over. *)
Theorem processMove_terminal ask t1 t2 this playerId moveText prompt reply :
  isFinished this = false ->
  isPlayerTurn this playerId = true ->
  buildMovePrompt this playerId moveText = Some prompt ->
  ask prompt = Some reply ->
  truthy_bool (r_valid (parseMoveResponse this reply)) = true ->
  truthy_bool (r_isCheckmate (parseMoveResponse this reply))
  || truthy_bool (r_isDraw (parseMoveResponse this reply)) = true ->
  let s' := fst (processMove ask t1 t2 this playerId moveText) in
  winner s' = (if truthy_bool (r_isCheckmate (parseMoveResponse this reply))
               then Has (Won (currentTurn this)) else Has Draw) /\
  endTime s' = Some t2 /\
  currentTurn s' = currentTurn this /\
  forall ask' t3 t4 p m,
    processMove ask' t3 t4 s' p m
    = (s', mkResult false (js "El juego ya ha terminado. " ++ getEndGameMessage s')
                    (Has true)).
Proof.
  intros Hfin Hturn Hp Hask Hv Hterm. cbv zeta.
  rewrite (processMove_accepts _ _ _ _ _ _ _ _ Hfin Hturn Hp Hask Hv).
  destruct (acceptMove_fields this playerId (Has moveText)
              (parseMoveResponse this reply) t1 t2) as (_ & Hover & _).
  assert (Hg : truthy_bool (r_gameOver (parseMoveResponse this reply)) = true).
  { change (r_gameOver (parseMoveResponse this reply))
      with (js_or (r_isCheckmate (parseMoveResponse this reply))
                  (r_isDraw (parseMoveResponse this reply))).
    unfold js_or.
    destruct (truthy_bool (r_isCheckmate (parseMoveResponse this reply))) eqn:Hc;
      [exact Hc|exact Hterm]. }
  destruct (Hover Hg) as (Hw & He & Ht).
  assert (Hw' : winner (acceptMove this playerId (Has moveText)
                          (parseMoveResponse this reply) t1 t2)
                = if truthy_bool (r_isCheckmate (parseMoveResponse this reply))
                  then Has (Won (currentTurn this)) else Has Draw).
  { rewrite Hw.
    change (r_winner (parseMoveResponse this reply))
      with (winner_of this (r_isCheckmate (parseMoveResponse this reply))
                      (r_isDraw (parseMoveResponse this reply))).
    unfold winner_of.
    destruct (truthy_bool (r_isCheckmate (parseMoveResponse this reply)));
      [reflexivity|]. rewrite orb_false_l in Hterm. rewrite Hterm. reflexivity. }
  repeat split; try assumption.
  intros ask' t3 t4 p m. apply processMove_on_finished.
  unfold isFinished. rewrite Hw'.
  destruct (truthy_bool (r_isCheckmate (parseMoveResponse this reply))); reflexivity.
Qed.

Lemma processMove_terminal_witness :
  let s' := fst (processMove (fun _ => Some reply_mate) 1%N 2%N ana_vs_ai
                             (js "1001") (js "dama a h5")) in
  winner s' = Has (Won Player1) /\
  endTime s' = Some 2%N /\
  currentTurn s' = Player1 /\
  forall ask' t3 t4 p m,
    processMove ask' t3 t4 s' p m
    = (s', mkResult false (js "El juego ya ha terminado. " ++ getEndGameMessage s')
                    (Has true)).
Proof.
  destruct (buildMovePrompt ana_vs_ai (js "1001") (js "dama a h5")) as [prompt|] eqn:Hp;
    [|vm_compute in Hp; discriminate].
  exact (processMove_terminal (fun _ => Some reply_mate) 1%N 2%N ana_vs_ai
           (js "1001") (js "dama a h5") prompt reply_mate
           eq_refl eq_refl Hp eq_refl eq_refl eq_refl).
Defined.


Lemma validateAIMove_ext (a1 a2 : list N -> option (list N)) this m :
  (forall p, a1 p = a2 p) -> validateAIMove a1 this m = validateAIMove a2 this m.
Proof.
  intros H. unfold validateAIMove.
  destruct (buildMovePrompt this (pid (player2 this)) m); [|reflexivity].
  rewrite H. reflexivity.
Qed.

Lemma attemptLoop_ext (o1 o2 : nat -> list N -> option (list N)) this remaining :
  forall intentos calls hist,
  (forall k p, (k < calls + 2 * remaining)%nat -> o1 k p = o2 k p) ->
  attemptLoop o1 this remaining intentos calls hist
  = attemptLoop o2 this remaining intentos calls hist.
Proof.
  induction remaining as [|rem IH]; intros intentos calls hist H; [reflexivity|].
  cbn [attemptLoop].
  destruct (buildAIPrompt this hist) as [prompt|]; [|reflexivity].
  rewrite (H calls prompt) by lia.
  destruct (o2 calls prompt) as [response|]; [|reflexivity].
  destruct (truthy_bool (r_valid (parseAIResponse this response))).
  - rewrite (validateAIMove_ext (o1 (S calls)) (o2 (S calls)))
      by (intros p; apply H; lia).
    destruct (validateAIMove (o2 (S calls)) this _) as [v called].
    destruct (truthy_bool (r_valid v)); [reflexivity|].
    apply IH. intros k p Hk. apply H. destruct called; lia.
  - apply IH. intros k p Hk. apply H. lia.
Qed.

(** X11. [generateAIMove] asks the service at most six times: its outcome depends
    on the first six answers only. *)
Theorem generateAIMove_six_calls (o1 o2 : nat -> list N -> option (list N)) t1 t2 this :
  (forall k p, (k < 6)%nat -> o1 k p = o2 k p) ->
  generateAIMove o1 t1 t2 this = generateAIMove o2 t1 t2 this.
Proof.
  intros H. unfold generateAIMove.
  rewrite (attemptLoop_ext o1 o2 this MAX_INTENTOS 0 0 []) by exact H.
  reflexivity.
Qed.

Lemma generateAIMove_six_calls_witness :
  (forall k p, (k < 6)%nat -> oracle_e7e5 k p = oracle_six_calls k p) /\
  generateAIMove oracle_e7e5 3%N 4%N after_e2e4
  = generateAIMove oracle_six_calls 3%N 4%N after_e2e4.
Proof.
  assert (H : forall k p, (k < 6)%nat -> oracle_e7e5 k p = oracle_six_calls k p).
  { intros k p Hk. unfold oracle_six_calls.
    destruct (Nat.ltb_spec k 6); [reflexivity|lia]. }
  split; [exact H|].
  exact (generateAIMove_six_calls oracle_e7e5 oracle_six_calls 3%N 4%N after_e2e4 H).
Defined.


Lemma search_some {R : Type} (m : list N -> option R) (s : list N) g :
  search m s = Some g -> exists s', m s' = Some g.
Proof.
  induction s as [|c t IH]; simpl.
  - destruct (m []) eqn:E; [|discriminate]. intros H. exists []. congruence.
  - destruct (m (c :: t)) eqn:E; [intros H; exists (c :: t); congruence|]. exact IH.
Qed.

Lemma lit_ci_some {R : Type} (lit : list N) (k : list N -> option R) (s : list N) g :
  lit_ci lit k s = Some g -> exists s', k s' = Some g.
Proof.
  revert s. induction lit as [|p lit IH]; intros s; simpl.
  - intros H. exists s. exact H.
  - destruct s as [|c t]; [discriminate|]. destruct (eq_ci c p); [apply IH|discriminate].
Qed.

Lemma ws_star_some {R : Type} (k : list N -> option R) (s : list N) g :
  ws_star k s = Some g -> exists s', k s' = Some g.
Proof.
  induction s as [|c t IH]; simpl.
  - intros H. exists []. exact H.
  - destruct (isSpace c); [|intros H; exists (c :: t); exact H].
    destruct (ws_star k t) eqn:E.
    + intros H. apply IH. congruence.
    + intros H. exists (c :: t). exact H.
Qed.

Lemma re_match_some label grp response g :
  re_match label grp response = Some g -> exists s', grp s' = Some g.
Proof.
  unfold re_match. intros H.
  apply search_some in H as [s1 H]. apply lit_ci_some in H as [s2 H].
  apply ws_star_some in H. exact H.
Qed.

Ltac ncases :=
  repeat match goal with
  | H : context [(?a <=? ?b)%N] |- _ => destruct (N.leb_spec a b)
  | H : context [(?a =? ?b)%N] |- _ => destruct (N.eqb_spec a b)
  | |- context [(?a <=? ?b)%N] => destruct (N.leb_spec a b)
  | |- context [(?a =? ?b)%N] => destruct (N.eqb_spec a b)
  end.

Lemma lower_file c : isFile c = true -> isLowerFile (lowerASCII c) = true.
Proof.
  unfold isFile, isLowerFile, upperASCII, lowerASCII. intros H.
  ncases; simpl in *; try discriminate; try reflexivity; ncases; simpl in *;
    try discriminate; try reflexivity; lia.
Qed.

Lemma lower_rank c : isRank c = true -> isRank (lowerASCII c) = true.
Proof.
  unfold isRank, lowerASCII. intros H.
  ncases; simpl in *; try discriminate; try reflexivity; ncases; simpl in *;
    try discriminate; try reflexivity; lia.
Qed.

Lemma lower_promo c : isPromo c = true -> isLowerPromo (lowerASCII c) = true.
Proof.
  unfold isPromo, isLowerPromo, upperASCII, lowerASCII. intros H.
  ncases; simpl in *; try discriminate; try reflexivity; ncases; simpl in *;
    try discriminate; try reflexivity; lia.
Qed.

Lemma grp_move_token s g : grp_move s = Some g -> isMoveToken (toLowerCase g) = true.
Proof.
  unfold grp_move.
  destruct s as [|f1 [|r1 [|f2 [|r2 rest]]]]; try discriminate.
  destruct (isFile f1) eqn:F1; [|discriminate].
  destruct (isRank r1) eqn:R1; [|discriminate].
  destruct (isFile f2) eqn:F2; [|discriminate].
  destruct (isRank r2) eqn:R2; [|discriminate].
  cbn [andb].
  assert (H4 : isMoveToken (toLowerCase [f1; r1; f2; r2]) = true).
  { cbn [toLowerCase List.map isMoveToken].
    rewrite (lower_file _ F1), (lower_rank _ R1), (lower_file _ F2), (lower_rank _ R2).
    reflexivity. }
  destruct rest as [|p rest]; [intros H; apply (inj Some) in H; subst g; exact H4|].
  destruct (isPromo p) eqn:P; intros H; apply (inj Some) in H; subst g; [|exact H4].
  cbn [toLowerCase List.map isMoveToken].
  rewrite (lower_file _ F1), (lower_rank _ R1), (lower_file _ F2), (lower_rank _ R2),
    (lower_promo _ P).
  reflexivity.
Qed.

(** X12. Whatever the service writes, a move that a parser extracts is in lower
    case coordinate notation: file, rank, file, rank and at most one promotion
    piece among q, r, b, n. *)
Theorem parsed_moves_are_tokens this response :
  (forall m, r_moveText (parseAIResponse this response) = Has m -> isMoveToken m = true) /\
  (forall m, r_normalizedMove (parseAIResponse this response) = Has m ->
             isMoveToken m = true) /\
  (forall m, r_normalizedMove (parseMoveResponse this response) = Has m ->
             isMoveToken m = true).
Proof.
  repeat split; intros m.
  - unfold parseAIResponse.
    destruct (re_match "MOVIMIENTO:" grp_move response) as [g|] eqn:E; [|discriminate].
    cbn [r_moveText]. intros H. injection H as <-.
    apply re_match_some in E as [s' E]. exact (grp_move_token _ _ E).
  - unfold parseAIResponse.
    destruct (re_match "MOVIMIENTO:" grp_move response) as [g|] eqn:E; [|discriminate].
    cbn [r_normalizedMove]. intros H. injection H as <-.
    apply re_match_some in E as [s' E]. exact (grp_move_token _ _ E).
  - unfold parseMoveResponse. cbn [r_normalizedMove].
    destruct (re_match "MOVIMIENTO_NORMALIZADO:" grp_move response) as [g|] eqn:E;
      [|discriminate].
    intros H. injection H as <-.
    apply re_match_some in E as [s' E]. exact (grp_move_token _ _ E).
Qed.

Lemma parsed_moves_are_tokens_witness :
  isMoveToken (js "e7e5") = true /\ isMoveToken (js "e2e4") = true.
Proof.
  split.
  - apply (proj1 (parsed_moves_are_tokens after_e2e4 gen_e7e5) (js "e7e5")).
    vm_compute. reflexivity.
  - apply (proj2 (proj2 (parsed_moves_are_tokens ana_vs_ai reply_e2e4)) (js "e2e4")).
    vm_compute. reflexivity.
Defined.





(** X14. [startGame]: a refusal leaves the registry as it was, a start never
    touches another channel, and a start whose write succeeds leaves the new
    game as the channel's document. *)
Theorem startGame_locality fsOk now (this : GameManager)
  (channelId userId username gameType : list N) opponent :
  ((forall g, snd (startGame fsOk now this channelId userId username gameType opponent)
              <> Started g) ->
   fst (startGame fsOk now this channelId userId username gameType opponent) = this) /\
  (forall other : list N, other <> channelId ->
     activeSessions (fst (startGame fsOk now this channelId userId username gameType
                                    opponent)) !! other
     = activeSessions this !! other /\
     savedFiles (fst (startGame fsOk now this channelId userId username gameType
                                opponent)) !! other
     = savedFiles this !! other) /\
  (forall g, snd (startGame fsOk now this channelId userId username gameType opponent)
             = Started g ->
             fsOk = true ->
             savedFiles (fst (startGame fsOk now this channelId userId username gameType
                                        opponent)) !! channelId = Some g).
Proof.
  unfold startGame.
  destruct (unfinishedSession this channelId) as [g0|].
  { split; [reflexivity|]. split; [split; reflexivity|]. intros g H. discriminate. }
  destruct (GAME_TYPES (toLowerCase gameType)).
  - split; [intros H; exfalso; eapply H; reflexivity|]. split.
    + intros other Hne. cbn [fst]. unfold saveGameState.
      destruct fsOk; cbn [activeSessions savedFiles].
      * split; [|apply lookup_insert_ne; congruence].
        change (isFinished (initialize userId username
                  match opponent with None => js "AI" | Some o => pid o end
                  match opponent with None => js "IA" | Some o => pname o end
                  (bool_decide (opponent = None)) now)) with false.
        cbv iota. apply lookup_insert_ne. congruence.
      * split; [apply lookup_insert_ne; congruence|reflexivity].
    + intros g Hg Hok. cbn [fst snd] in *.
      assert (Eg : g = match Started g with Started x => x | _ => g end) by reflexivity.
      rewrite <- Hg in Eg. subst g. subst fsOk.
      unfold saveGameState. cbn [savedFiles]. apply lookup_insert_eq.
  - split; [reflexivity|]. split; [split; reflexivity|]. intros g H. discriminate.
  - split; [reflexivity|]. split; [split; reflexivity|]. intros g H. discriminate.
Qed.

Lemma startGame_locality_witness :
  fst (startGame true 9%N registry_unfinished (js "chan") (js "1003") (js "Eva")
                 (js "chess") None) = registry_unfinished /\
  (activeSessions (fst (startGame true 9%N registry_unfinished (js "otro") (js "1003")
                                  (js "Eva") (js "chess") None)) !! js "chan"
   = activeSessions registry_unfinished !! js "chan" /\
   savedFiles (fst (startGame true 9%N registry_unfinished (js "otro") (js "1003")
                              (js "Eva") (js "chess") None)) !! js "chan"
   = savedFiles registry_unfinished !! js "chan").
Proof.
  split.
  - apply (proj1 (startGame_locality true 9%N registry_unfinished (js "chan")
                    (js "1003") (js "Eva") (js "chess") None)).
    intros g. unfold startGame, unfinishedSession, registry_unfinished.
    cbn [activeSessions]. rewrite lookup_insert_eq.
    change (isFinished after_e2e4) with false. cbv iota. cbn [snd]. discriminate.
  - apply (proj1 (proj2 (startGame_locality true 9%N registry_unfinished (js "otro")
                           (js "1003") (js "Eva") (js "chess") None))).
    vm_compute. discriminate.
Defined.


Lemma processMove_out_of_turn ask t1 t2 this playerId moveText :
  isFinished this = false ->
  isPlayerTurn this playerId = false ->
  processMove ask t1 t2 this playerId moveText
  = (this, mkResult false (js "No es tu turno para jugar.") (Has false)).
Proof. intros Hf Ht. unfold processMove. rewrite Hf, Ht. reflexivity. Qed.

(** X15. When the two players have different ids, the player whose move was just
    accepted (and did not end the game) cannot move again: the next attempt is
    refused as out of turn and changes nothing. *)
Theorem no_two_moves_in_a_row ask ask' t1 t2 t3 t4 this playerId moveText moveText'
  prompt reply :
  pid (player1 this) <> pid (player2 this) ->
  isFinished this = false ->
  isPlayerTurn this playerId = true ->
  buildMovePrompt this playerId moveText = Some prompt ->
  ask prompt = Some reply ->
  truthy_bool (r_valid (parseMoveResponse this reply)) = true ->
  truthy_bool (r_gameOver (parseMoveResponse this reply)) = false ->
  let s' := fst (processMove ask t1 t2 this playerId moveText) in
  processMove ask' t3 t4 s' playerId moveText'
  = (s', mkResult false (js "No es tu turno para jugar.") (Has false)).
Proof.
  intros Hids Hfin Hturn Hp Hask Hv Hg s'.
  destruct (step_identity this s' (step_processMove this ask t1 t2 playerId moveText))
    as (Hp1 & Hp2 & _).
  assert (Hs : s' = acceptMove this playerId (Has moveText)
                               (parseMoveResponse this reply) t1 t2)
    by (apply processMove_accepts with (prompt := prompt); assumption).
  destruct (acceptMove_fields this playerId (Has moveText)
              (parseMoveResponse this reply) t1 t2) as (_ & _ & Hgo).
  destruct (Hgo Hg) as (Hw & _ & Ht). rewrite <- Hs in Hw, Ht.
  assert (Hf' : isFinished s' = false) by (unfold isFinished in *; rewrite Hw; exact Hfin).
  apply processMove_out_of_turn; [exact Hf'|].
  unfold isPlayerTurn in *. rewrite Ht, Hp1, Hp2. unfold str_eqb in *.
  destruct (currentTurn this); cbn [otherSide].
  - apply bool_decide_eq_true in Hturn. subst playerId.
    apply bool_decide_eq_false. exact Hids.
  - apply bool_decide_eq_true in Hturn. subst playerId.
    apply bool_decide_eq_false. congruence.
Qed.

Lemma no_two_moves_in_a_row_witness :
  pid (player1 ana_vs_bob) <> pid (player2 ana_vs_bob) /\
  let s' := fst (processMove (fun _ => Some reply_e2e4) 1%N 2%N ana_vs_bob
                             (js "1001") (js "e2e4")) in
  processMove (fun _ => Some reply_e7e5) 3%N 4%N s' (js "1001") (js "d2d4")
  = (s', mkResult false (js "No es tu turno para jugar.") (Has false)).
Proof.
  assert (Hids : pid (player1 ana_vs_bob) <> pid (player2 ana_vs_bob))
    by (vm_compute; discriminate).
  split; [exact Hids|].
  destruct (buildMovePrompt ana_vs_bob (js "1001") (js "e2e4")) as [prompt|] eqn:Hp;
    [|vm_compute in Hp; discriminate].
  exact (no_two_moves_in_a_row (fun _ => Some reply_e2e4) (fun _ => Some reply_e7e5)
           1%N 2%N 3%N 4%N ana_vs_bob (js "1001") (js "e2e4") (js "d2d4") prompt
           reply_e2e4 Hids eq_refl eq_refl Hp eq_refl eq_refl eq_refl).
Defined.


Lemma decode_rows_take (rows : list (list N)) :
  (8 <= length rows)%nat ->
  decode_rows rows = Some (List.map decode_rank (take 8 rows)).
Proof.
  intros H.
  destruct rows as [|r0 [|r1 [|r2 [|r3 [|r4 [|r5 [|r6 [|r7 rows]]]]]]]];
    simpl in H; try lia.
  reflexivity.
Qed.

(** X16. [updateBoardFromFEN] on a malformed text: with fewer than eight ranks in
    the first field nothing changes; with eight ranks but fewer than three
    fields only the board is replaced, by the first eight ranks decoded. *)
Theorem updateBoardFromFEN_malformed st fen :
  ((length (split_on 47%N (default [] (split_on 32%N fen !! 0%nat))) < 8)%nat ->
   updateBoardFromFEN st fen = st) /\
  ((8 <= length (split_on 47%N (default [] (split_on 32%N fen !! 0%nat))))%nat ->
   (length (split_on 32%N fen) < 3)%nat ->
   updateBoardFromFEN st fen
   = mkChessState
       (List.map decode_rank
                 (take 8 (split_on 47%N (default [] (split_on 32%N fen !! 0%nat)))))
       (perspective st) (lastMove st) (check st) (castlingRights st)
       (enPassantTarget st) (halfMoveClock st) (fullMoveNumber st)).
Proof.
  unfold updateBoardFromFEN. split.
  - intros H. rewrite (decode_rows_short _ H). reflexivity.
  - intros H8 H3. rewrite (decode_rows_take _ H8).
    rewrite (lookup_ge_None_2 (split_on 32%N fen) 2) by lia. reflexivity.
Qed.

Lemma updateBoardFromFEN_malformed_witness :
  updateBoardFromFEN initializeGameState (js "8/8/8/8 w - - 0 1") = initializeGameState /\
  updateBoardFromFEN initializeGameState (js "8/8/8/8/8/8/8/7k b")
  = mkChessState
      (List.map decode_rank (take 8 (split_on 47%N (js "8/8/8/8/8/8/8/7k"))))
      (js "white") Null Null (mkCastling true true true true) Null (Int 0) (Int 1).
Proof.
  split.
  - apply (proj1 (updateBoardFromFEN_malformed initializeGameState
                    (js "8/8/8/8 w - - 0 1"))).
    vm_compute. lia.
  - apply (proj2 (updateBoardFromFEN_malformed initializeGameState
                    (js "8/8/8/8/8/8/8/7k b"))); vm_compute; lia.
Defined.


(** X17. The outcome that [parseMoveResponse] reports is coherent: the game is over
    exactly when there is a winner; the winner is the side to move on
    checkmate, which takes precedence over a draw. *)
Theorem parsed_outcome_coherent this response :
  let r := parseMoveResponse this response in
  (truthy_bool (r_gameOver r) = true <-> r_winner r <> Null) /\
  (truthy_bool (r_isCheckmate r) = true -> r_winner r = Has (Won (currentTurn this))) /\
  (truthy_bool (r_isCheckmate r) = false -> truthy_bool (r_isDraw r) = true ->
   r_winner r = Has Draw).
Proof.
  cbv zeta.
  change (r_gameOver (parseMoveResponse this response))
    with (js_or (r_isCheckmate (parseMoveResponse this response))
                (r_isDraw (parseMoveResponse this response))).
  change (r_winner (parseMoveResponse this response))
    with (winner_of this (r_isCheckmate (parseMoveResponse this response))
                    (r_isDraw (parseMoveResponse this response))).
  unfold js_or, winner_of.
  destruct (truthy_bool (r_isCheckmate (parseMoveResponse this response))) eqn:Hc.
  - rewrite Hc. repeat split; try discriminate; reflexivity.
  - destruct (truthy_bool (r_isDraw (parseMoveResponse this response))) eqn:Hd.
    + repeat split; try discriminate; reflexivity.
    + repeat split; try discriminate; try congruence.
Qed.

Lemma parsed_outcome_coherent_witness :
  r_winner (parseMoveResponse ana_vs_ai reply_mate) = Has (Won Player1) /\
  r_winner (parseMoveResponse ana_vs_ai reply_mate) <> Null.
Proof.
  pose proof (parsed_outcome_coherent ana_vs_ai reply_mate) as (H1 & H2 & _).
  split; [apply H2; vm_compute; reflexivity|].
  apply H1. vm_compute. reflexivity.
Defined.


(** The state that [acceptMove] leaves does not depend on who moved or on the
    text submitted: it is a function of the session and of the parsed reply. *)
Lemma acceptMove_state_from_reply this p1 p2 m1 m2 (mr : MoveResult) t1 t2 t3 t4 :
  state (acceptMove this p1 m1 mr t1 t2) = state (acceptMove this p2 m2 mr t3 t4).
Proof.
  unfold acceptMove, applyMove.
  destruct (truthy_bool (r_gameOver mr)), (truthy_bool (r_valid mr)); reflexivity.
Qed.

(** X18. The board is never computed from the move: when the accepted reply carries
    the FEN text of a well-formed position, the session takes that position's
    board, castling rights, en-passant target and half-move clock, and its
    full-move number, plus one after a move of player2. *)
Theorem accepted_fen_installs_position ask t1 t2 this playerId moveText prompt reply
  target fen :
  isFinished this = false ->
  isPlayerTurn this playerId = true ->
  buildMovePrompt this playerId moveText = Some prompt ->
  ask prompt = Some reply ->
  truthy_bool (r_valid (parseMoveResponse this reply)) = true ->
  wf_state (state target) = true ->
  generateFEN target = Some fen ->
  r_fenResult (parseMoveResponse this reply) = Has fen ->
  let s' := fst (processMove ask t1 t2 this playerId moveText) in
  board (state s') = board (state target) /\
  castlingRights (state s') = castlingRights (state target) /\
  enPassantTarget (state s') = enPassantTarget (state target) /\
  halfMoveClock (state s') = halfMoveClock (state target) /\
  fullMoveNumber (state s')
  = (match currentTurn this with
     | Player1 => fullMoveNumber (state target)
     | Player2 => num_incr (fullMoveNumber (state target))
     end).
Proof.
  intros Hfin Hturn Hp Hask Hv Hwf Hgen Hfen. cbv zeta.
  rewrite (processMove_accepts _ _ _ _ _ _ _ _ Hfin Hturn Hp Hask Hv).
  destruct (fen_text_decodes target Hwf) as (fen' & Hgen' & Hsix & _ & Hdec).
  rewrite Hgen in Hgen'. apply (inj Some) in Hgen'. subst fen'.
  assert (Hne : fen <> []) by (intros ->; discriminate).
  specialize (Hdec (state this)).
  unfold acceptMove, applyMove. rewrite Hv, Hfen.
  destruct fen as [|c t]; [congruence|]. cbn [state push_move currentTurn]. rewrite Hdec.
  destruct (truthy_bool (r_gameOver (parseMoveResponse this reply)));
    cbn [state set_state set_winner set_endTime switchTurn set_currentTurn push_move
         board castlingRights enPassantTarget halfMoveClock fullMoveNumber currentTurn];
    repeat split; reflexivity.
Qed.

Lemma accepted_fen_installs_position_witness :
  wf_state (state after_e2e4) = true /\
  r_fenResult (parseMoveResponse ana_vs_ai reply_e2e4) = generateFEN_field after_e2e4 /\
  let s' := fst (processMove (fun _ => Some reply_e2e4) 1%N 2%N ana_vs_ai
                             (js "1001") (js "e2e4")) in
  board (state s') = board (state after_e2e4) /\
  castlingRights (state s') = castlingRights (state after_e2e4) /\
  enPassantTarget (state s') = enPassantTarget (state after_e2e4) /\
  halfMoveClock (state s') = halfMoveClock (state after_e2e4) /\
  fullMoveNumber (state s') = fullMoveNumber (state after_e2e4).
Proof.
  split; [vm_compute; reflexivity|].
  destruct (generateFEN after_e2e4) as [fen|] eqn:Hgen; [|vm_compute in Hgen; discriminate].
  assert (Hfen : r_fenResult (parseMoveResponse ana_vs_ai reply_e2e4) = Has fen).
  { vm_compute in Hgen. apply (inj Some) in Hgen. subst fen. vm_compute. reflexivity. }
  split; [unfold generateFEN_field; rewrite Hgen; exact Hfen|].
  destruct (buildMovePrompt ana_vs_ai (js "1001") (js "e2e4")) as [prompt|] eqn:Hp;
    [|vm_compute in Hp; discriminate].
  exact (accepted_fen_installs_position (fun _ => Some reply_e2e4) 1%N 2%N ana_vs_ai
           (js "1001") (js "e2e4") prompt reply_e2e4 after_e2e4 fen
           eq_refl eq_refl Hp eq_refl eq_refl eq_refl Hgen Hfen).
Defined.


Lemma quoted_skip (x A B : list N) :
  (exists pre post, B = pre ++ x ++ post) ->
  exists pre post, A ++ B = pre ++ x ++ post.
Proof.
  intros (pre & post & ->). exists (A ++ pre), post. rewrite <- app_assoc. reflexivity.
Qed.

Lemma quoted_first (x A B : list N) :
  (exists pre post, A = pre ++ x ++ post) ->
  exists pre post, A ++ B = pre ++ x ++ post.
Proof.
  intros (pre & post & ->). exists pre, (post ++ B). rewrite <- !app_assoc. reflexivity.
Qed.

Lemma quoted_here (a b c d e post : list N) :
  exists pre post', a ++ b ++ c ++ d ++ e ++ post = pre ++ (a ++ b ++ c ++ d ++ e) ++ post'.
Proof. exists [], post. rewrite <- !app_assoc. reflexivity. Qed.

Ltac abstract_literals :=
  repeat match goal with
  | |- context [js ?s] => generalize (js s); intro
  end.

Lemma intentos_quoted (hist : list Intento) m r :
  (m, r) ∈ hist ->
  exists pre post,
    intentosFallidosMsg hist
    = pre ++ (dquote ++ m ++ dquote ++ js " - Razón: " ++ tmpl r) ++ post.
Proof.
  intros Hin. apply list_elem_of_split in Hin as (l1 & l2 & ->).
  unfold intentosFallidosMsg.
  destruct (l1 ++ (m, r) :: l2) as [|x l] eqn:E; [destruct l1; discriminate|].
  rewrite <- E. clear E x l.
  rewrite imap_app, concat_app. cbn [imap concat fst snd].
  generalize (tmpl r). intros reason.
  abstract_literals.
  apply quoted_skip, quoted_skip, quoted_skip, quoted_first, quoted_skip.
  rewrite <- !app_assoc.
  apply quoted_skip, quoted_skip, quoted_skip. apply quoted_here.
Qed.

(** X19. The generation prompt quotes every earlier rejected attempt with its
    reason. *)
Theorem buildAIPrompt_quotes_rejected this (hist : list Intento) prompt m r :
  buildAIPrompt this hist = Some prompt ->
  (m, r) ∈ hist ->
  exists pre post,
    prompt = pre ++ (dquote ++ m ++ dquote ++ js " - Razón: " ++ tmpl r) ++ post.
Proof.
  unfold buildAIPrompt. destruct (generateFEN this) as [fen|]; [|discriminate].
  intros H Hin. apply (inj Some) in H. subst prompt.
  pose proof (intentos_quoted hist m r Hin) as Hq.
  revert Hq. generalize (intentosFallidosMsg hist). intros msg Hq.
  generalize (tmpl r) Hq. clear Hq. intros reason Hq.
  revert Hq. abstract_literals. intros Hq.
  repeat (first [apply quoted_first; exact Hq | apply quoted_skip]).
Qed.

Lemma buildAIPrompt_quotes_rejected_witness :
  exists prompt pre post,
    buildAIPrompt after_e2e4 one_rejected = Some prompt /\
    prompt = pre ++ (dquote ++ js "a7a4" ++ dquote ++ js " - Razón: "
                     ++ tmpl (Has (js "El peón no puede avanzar tres casillas")))
             ++ post.
Proof.
  destruct (buildAIPrompt after_e2e4 one_rejected) as [prompt|] eqn:E;
    [|vm_compute in E; discriminate].
  destruct (buildAIPrompt_quotes_rejected after_e2e4 one_rejected prompt (js "a7a4")
              (Has (js "El peón no puede avanzar tres casillas")) E)
    as (pre & post & H).
  { unfold one_rejected. constructor. }
  exists prompt, pre, post. split; [reflexivity|exact H].
Defined.

